(** * AnimeOpening: the generation-job orchestrator of [frontend/src/App.js]

    A shallow embedding of the React component [AnimeOpeningGenerator]
    (the version that talks to the backend, with [API_URL]): its state
    hooks, its event handlers and the two loops of [generateOpening].

    Conventions of the embedding.
    - A handler is a closure created by one render: it reads the state
      values of that render (the snapshot [r]) and writes through the
      setters into the live store. Handlers therefore take the snapshot as
      an explicit argument.
    - Effects are explicit: a [World] carries the state hooks, the
      [localStorage] map and the chronological trace of everything the
      code did (setter calls, requests, alerts, console output, timers).
    - [await fetch(..)] takes its answer from a script of replies; a
      handler that awaits with the script exhausted is [Await]ing.
    - JS numbers are modelled by integers. Their text is defined for
      magnitudes below 2^53, where it is the decimal numeral; a run that
      needs the text of a larger number is [Beyond] the embedding.
    - [handleImageUpload] is embedded with the file reads taken as one
      step; of the JSX only the conditions under which the generate and
      the save button can be clicked are embedded. *)

From Stdlib Require Import Ascii String ZArith.
From stdpp Require Import gmap strings list pretty.

Open Scope string_scope.
Open Scope list_scope.
Open Scope Z_scope.

(** ** JavaScript values (what [response.json()] can produce) *)

#[warnings="-register-all"]
Inductive jsval : Type :=
  | VUndefined
  | VNull
  | VBool (b : bool)
  | VNum (n : Z)
  | VStr (s : string)
  | VArr (items : list jsval)
  | VObj (fields : list (string * jsval)).

(** ToBoolean, as used by [if (v)], [v || d] and [v && w]. *)
Definition truthy (v : jsval) : bool :=
  match v with
  | VUndefined | VNull => false
  | VBool b => b
  | VNum n => negb (n =? 0)
  | VStr s => negb (String.eqb s "")
  | VArr _ | VObj _ => true
  end.

(** [v || d] *)
Definition js_or (v d : jsval) : jsval := if truthy v then v else d.

(** [v === 'lit'] for a string literal. *)
Definition is_str (v : jsval) (lit : string) : bool :=
  match v with
  | VStr s => String.eqb s lit
  | _ => false
  end.

(** The first binding of a key is the effective one. *)
Fixpoint lookup_field (k : string) (fields : list (string * jsval)) : jsval :=
  match fields with
  | [] => VUndefined
  | (k', v) :: rest => if String.eqb k k' then v else lookup_field k rest
  end.

(** An own key of a parsed object. *)
Fixpoint has_key (k : string) (fields : list (string * jsval)) : bool :=
  match fields with
  | [] => false
  | (k', _) :: rest => String.eqb k k' || has_key k rest
  end.

(** What ToString gives: the text of the value; a TypeError; or nothing
    the embedding defines (a number of magnitude 2^53 or more, whose
    text in JS is not its decimal numeral). *)
Inductive Text : Type :=
  | Chars (s : string)
  | NoString
  | Unknown.

(** Two texts joined by a comma, the left one converted first. A throw
    on either side is a throw. *)
Definition glue (a b : Text) : Text :=
  match a, b with
  | NoString, _ | _, NoString => NoString
  | Unknown, _ | _, Unknown => Unknown
  | Chars x, Chars y => Chars (x +:+ "," +:+ y)
  end.

(** ToString, as used by template literals. A parsed object with an own
    [toString] key has no callable [toString] and the inherited [valueOf]
    returns the object itself, so the conversion throws; any other parsed
    object is ["[object Object]"]. An array is the join of its elements,
    [null] and [undefined] counting as empty. *)
Fixpoint toString (v : jsval) : Text :=
  match v with
  | VUndefined => Chars "undefined"
  | VNull => Chars "null"
  | VBool true => Chars "true"
  | VBool false => Chars "false"
  | VNum n => if Z.abs n <? 2 ^ 53 then Chars (pretty n) else Unknown
  | VStr s => Chars s
  | VArr items =>
      (fix join (l : list jsval) : Text :=
         let elt x := match x with
                      | VUndefined | VNull => Chars ""
                      | _ => toString x
                      end in
         match l with
         | [] => Chars ""
         | [x] => elt x
         | x :: l' => glue (elt x) (join l')
         end) items
  | VObj fields =>
      if has_key "toString" fields then NoString else Chars "[object Object]"
  end.

(** ** The component state *)

Record Image : Type := mkImage {
  file : string;
  preview : string;
  name : string
}.

Record State : Type := mkState {
  images : list Image;
  isGenerating : bool;
  generatedVideo : option string;
  videoTheme : string;
  isAuthenticated : bool;
  userName : string;
  generationProgress : jsval;
  authToken : string;
  taskId : jsval
}.

(** The [useState] initial values. *)
Definition initialState : State :=
  {| images := []; isGenerating := false; generatedVideo := None;
     videoTheme := "action"; isAuthenticated := false; userName := "";
     generationProgress := VNum 0; authToken := ""; taskId := VNull |}.

Definition API_URL : string := "http://localhost:8000".

(** A setter call. *)
Inductive Update : Type :=
  | SetImages (l : list Image)
  | SetIsGenerating (b : bool)
  | SetGeneratedVideo (v : option string)
  | SetVideoTheme (t : string)
  | SetIsAuthenticated (b : bool)
  | SetUserName (n : string)
  | SetGenerationProgress (p : jsval)
  | SetAuthToken (t : string)
  | SetTaskId (t : jsval).

Definition apply_update (u : Update) (s : State) : State :=
  match u with
  | SetImages l =>
      mkState l (isGenerating s) (generatedVideo s) (videoTheme s)
        (isAuthenticated s) (userName s) (generationProgress s) (authToken s) (taskId s)
  | SetIsGenerating b =>
      mkState (images s) b (generatedVideo s) (videoTheme s)
        (isAuthenticated s) (userName s) (generationProgress s) (authToken s) (taskId s)
  | SetGeneratedVideo v =>
      mkState (images s) (isGenerating s) v (videoTheme s)
        (isAuthenticated s) (userName s) (generationProgress s) (authToken s) (taskId s)
  | SetVideoTheme t =>
      mkState (images s) (isGenerating s) (generatedVideo s) t
        (isAuthenticated s) (userName s) (generationProgress s) (authToken s) (taskId s)
  | SetIsAuthenticated b =>
      mkState (images s) (isGenerating s) (generatedVideo s) (videoTheme s)
        b (userName s) (generationProgress s) (authToken s) (taskId s)
  | SetUserName n =>
      mkState (images s) (isGenerating s) (generatedVideo s) (videoTheme s)
        (isAuthenticated s) n (generationProgress s) (authToken s) (taskId s)
  | SetGenerationProgress p =>
      mkState (images s) (isGenerating s) (generatedVideo s) (videoTheme s)
        (isAuthenticated s) (userName s) p (authToken s) (taskId s)
  | SetAuthToken t =>
      mkState (images s) (isGenerating s) (generatedVideo s) (videoTheme s)
        (isAuthenticated s) (userName s) (generationProgress s) t (taskId s)
  | SetTaskId t =>
      mkState (images s) (isGenerating s) (generatedVideo s) (videoTheme s)
        (isAuthenticated s) (userName s) (generationProgress s) (authToken s) t
  end.

(** ** Requests, replies and the trace *)

Inductive FormEntry : Type :=
  | FFile (f : string)
  | FText (s : string).

Inductive Body : Type :=
  | NoBody
  | FormData (entries : list (string * FormEntry))
  | JsonBody (v : jsval).

Record Request : Type := mkRequest {
  method : string;
  url : string;
  headers : list (string * string);
  body : Body
}.

(** [json = None]: the body is not JSON, [response.json()] rejects. *)
Record Response : Type := mkResponse {
  ok : bool;
  status : Z;
  json : option jsval
}.

Inductive Reply : Type :=
  | NetworkError
  | Resp (resp : Response).

Inductive Err : Type :=
  | ApiError (msg : string)
  | FetchFailed
  | SyntaxErr
  | TypeErr.

Inductive Event : Type :=
  | ESet (u : Update)
  | EFetch (req : Request)
  | EAlert (msg : string)
  | ELog (label : string) (v : jsval)
  | EError (label : string) (e : Err)
  | ETimeout (ms : Z)
  | EStore (key : string) (v : option string).

Record World : Type := mkWorld {
  st : State;
  storage : gmap string string;
  trace : list Event
}.

Definition emit (e : Event) (w : World) : World :=
  mkWorld (st w) (storage w) (trace w ++ [e]).

Definition set_state (u : Update) (w : World) : World :=
  mkWorld (apply_update u (st w)) (storage w) (trace w ++ [ESet u]).

(** ** The monad of handlers *)

(** The outcome of a handler on a script of replies: it returned; it threw;
    it is waiting for a reply the script does not hold; a loop of it is
    still going after the rounds it was given; or it needed the text of a
    number that the embedding does not define. *)
Inductive res (A : Type) : Type :=
  | Val (a : A) (w : World) (rs : list Reply)
  | Exn (e : Err) (w : World) (rs : list Reply)
  | Await (w : World)
  | OutOfFuel (w : World)
  | Beyond (w : World).
Arguments Val {A} a w rs.
Arguments Exn {A} e w rs.
Arguments Await {A} w.
Arguments OutOfFuel {A} w.
Arguments Beyond {A} w.

Definition M (A : Type) : Type := World → list Reply → res A.

Definition ret {A} (a : A) : M A := λ w rs, Val a w rs.

Definition bind {A B} (m : M A) (k : A → M B) : M B :=
  λ w rs,
    match m w rs with
    | Val a w' rs' => k a w' rs'
    | Exn e w' rs' => Exn e w' rs'
    | Await w' => Await w'
    | OutOfFuel w' => OutOfFuel w'
    | Beyond w' => Beyond w'
    end.

Notation "x <~ c ;; k" := (bind c (λ x, k))
  (at level 100, c at next level, right associativity).
Notation "c ;; k" := (bind c (λ _, k))
  (at level 100, right associativity).

Definition throw {A} (e : Err) : M A := λ w rs, Exn e w rs.

(** [try { m } catch (error) { h error }] *)
Definition try_catch {A} (m : M A) (h : Err → M A) : M A :=
  λ w rs,
    match m w rs with
    | Exn e w' rs' => h e w' rs'
    | other => other
    end.

Definition act (f : World → World) : M unit := λ w rs, Val tt (f w) rs.

Definition set (u : Update) : M unit := act (set_state u).
Definition alert (msg : string) : M unit := act (emit (EAlert msg)).
Definition console_log (label : string) (v : jsval) : M unit := act (emit (ELog label v)).
Definition console_error (label : string) (e : Err) : M unit := act (emit (EError label e)).

(** [await new Promise(resolve => setTimeout(resolve, ms))] *)
Definition sleep (ms : Z) : M unit := act (emit (ETimeout ms)).

(** [await fetch(..)]: the request goes out, the next scripted reply comes
    back; a transport failure rejects. *)
Definition fetch (req : Request) : M Response :=
  λ w rs,
    let w' := emit (EFetch req) w in
    match rs with
    | [] => Await w'
    | NetworkError :: rs' => Exn FetchFailed w' rs'
    | Resp resp :: rs' => Val resp w' rs'
    end.

(** [await response.json()] *)
Definition response_json (resp : Response) : M jsval :=
  match json resp with
  | Some v => ret v
  | None => throw SyntaxErr
  end.

(** [v.k]: a TypeError on [null] and [undefined]; none of the keys read by
    this program exists on a number, a boolean, a string or an array. *)
Definition get_prop (v : jsval) (k : string) : option jsval :=
  match v with
  | VUndefined | VNull => None
  | VObj fields => Some (lookup_field k fields)
  | _ => Some VUndefined
  end.

Definition prop (v : jsval) (k : string) : M jsval :=
  match get_prop v k with
  | Some x => ret x
  | None => throw TypeErr
  end.

(** [if (!response.ok) throw new Error(`API error: ${response.status}`)] *)
Definition check_ok (resp : Response) : M unit :=
  if ok resp then ret tt
  else throw (ApiError ("API error: " +:+ pretty (status resp))).

(** [`${v}`] *)
Definition to_text (v : jsval) : M string :=
  match toString v with
  | Chars s => ret s
  | NoString => throw TypeErr
  | Unknown => λ w _, Beyond w
  end.

(** ** The handlers *)

(** [localStorage.getItem / setItem / removeItem] *)
Definition getItem (key : string) : M (option string) :=
  λ w rs, Val (storage w !! key) w rs.

Definition setItem (key value : string) : M unit :=
  act (λ w, mkWorld (st w) (<[key := value]> (storage w))
                    (trace w ++ [EStore key (Some value)])).

Definition removeItem (key : string) : M unit :=
  act (λ w, mkWorld (st w) (delete key (storage w))
                    (trace w ++ [EStore key None])).

(** [handleLogin]; [rand] is the value of
    [Math.random().toString(36).substring(2)]. *)
Definition handleLogin (rand : string) : M unit :=
  let mockToken := "hackathon-demo-token-" +:+ rand in
  set (SetAuthToken mockToken) ;;
  set (SetIsAuthenticated true) ;;
  set (SetUserName "HackathonUser") ;;
  setItem "auth_token" mockToken.

Definition handleLogout : M unit :=
  set (SetAuthToken "") ;;
  set (SetIsAuthenticated false) ;;
  set (SetUserName "") ;;
  removeItem "auth_token".

(** The mount effect ([useEffect(.., [])]); the sparkle decoration it
    also adds to the page touches no state and is left out. *)
Definition mountEffect : M unit :=
  storedToken <~ getItem "auth_token" ;;
  match storedToken with
  | Some t =>
      if negb (String.eqb t "") then
        set (SetAuthToken t) ;;
        set (SetIsAuthenticated true) ;;
        set (SetUserName "HackathonUser")
      else ret tt
  | None => ret tt
  end.

(** [arr.filter((x, i) => p x i)] *)
Fixpoint filter_from {A} (p : A → Z → bool) (i : Z) (l : list A) : list A :=
  match l with
  | [] => []
  | x :: l' =>
      if p x i then x :: filter_from p (i + 1) l' else filter_from p (i + 1) l'
  end.

Definition js_filter {A} (p : A → Z → bool) (l : list A) : list A :=
  filter_from p 0 l.

(** [removeImage] *)
Definition removeImage (r : State) (index : Z) : M unit :=
  set (SetImages (js_filter (λ _ i, negb (i =? index)) (images r))).

(** The status query for the task id of text [id]. *)
Definition status_request (id : string) : Request :=
  mkRequest "GET" (API_URL +:+ "/api/generation-status/" +:+ id) [] NoBody.

(** [checkGenerationProgress]; the three template literals are evaluated
    inside the [try], before the call they are the argument of. *)
Definition checkGenerationProgress (taskId : jsval) : M bool :=
  try_catch
    (id <~ to_text taskId ;;
     response <~ fetch (status_request id) ;;
     check_ok response ;;
     data <~ response_json response ;;
     console_log "Progress update:" data ;;
     progress <~ prop data "progress" ;;
     set (SetGenerationProgress (js_or progress (VNum 0))) ;;
     status <~ prop data "status" ;;
     if is_str status "completed" then
       set (SetIsGenerating false) ;;
       result <~ prop data "result" ;;
       (if truthy result then
          video_url <~ prop result "video_url" ;;
          if truthy video_url then
            reference <~ to_text video_url ;;
            set (SetGeneratedVideo (Some (API_URL +:+ reference)))
          else ret tt
        else ret tt) ;;
       ret true
     else if is_str status "failed" then
       set (SetIsGenerating false) ;;
       message <~ prop data "message" ;;
       text <~ to_text message ;;
       alert ("Generation failed: " +:+ text) ;;
       ret true
     else ret false)
    (λ error,
       console_error "Error checking generation status:" error ;;
       ret false).

(** [while (!completed && isGenerating) { wait 2 s; completed = await
    checkGenerationProgress(task_id) }]; [isGenerating] is the constant of
    the render that created the handler. A loop that has not ended after
    [fuel] rounds is [OutOfFuel]: every round that makes a query takes a
    reply off the script, so only a loop whose rounds make no query gets
    there, and that loop never ends. *)
Fixpoint pollLoop (fuel : nat) (r : State) (task_id : jsval) (completed : bool)
    : M unit :=
  match fuel with
  | O => λ w _, OutOfFuel w
  | S fuel' =>
      if negb completed && isGenerating r then
        sleep 2000 ;;
        completed' <~ checkGenerationProgress task_id ;;
        pollLoop fuel' r task_id completed'
      else ret tt
  end.

(** [for (let i = 0; i <= 100; i += 10) { setGenerationProgress(i); wait
    500 ms }], from the current [i]. *)
Fixpoint rampLoop (fuel : nat) (i : Z) : M unit :=
  match fuel with
  | O => λ w _, OutOfFuel w
  | S fuel' =>
      if i <=? 100 then
        set (SetGenerationProgress (VNum i)) ;;
        sleep 500 ;;
        rampLoop fuel' (i + 10)
      else ret tt
  end.

(** The submission request built by [generateOpening]. *)
Definition submit_request (r : State) : Request :=
  let formData :=
    (map (λ image, ("images", FFile (file image))) (images r)
       ++ [("theme", FText (videoTheme r))]) in
  let headers :=
    if negb (String.eqb (authToken r) "")
    then [("Authorization", "Bearer " +:+ authToken r)] else [] in
  mkRequest "POST" (API_URL +:+ "/api/generate-opening") headers (FormData formData).

(** [generateOpening] *)
Definition generateOpening (r : State) : M unit :=
  if bool_decide (length (images r) = 0%nat) then
    alert "Please upload at least one image!"
  else
    set (SetIsGenerating true) ;;
    set (SetGenerationProgress (VNum 0)) ;;
    try_catch
      (response <~ fetch (submit_request r) ;;
       check_ok response ;;
       data <~ response_json response ;;
       console_log "Generation started:" data ;;
       task_id <~ prop data "task_id" ;;
       if truthy task_id then
         set (SetTaskId task_id) ;;
         (λ w rs, pollLoop (S (length rs)) r task_id false w rs)
       else
         rampLoop 12 0 ;;
         set (SetGeneratedVideo (Some "/sample-anime-opening.mp4")) ;;
         set (SetIsGenerating false))
      (λ error,
         console_error "Error generating anime opening:" error ;;
         set (SetIsGenerating false) ;;
         alert "Failed to generate anime opening. Please try again.").

(** [s.charAt(0).toUpperCase() + s.slice(1)], for ASCII text. *)
Definition upper (c : ascii) : ascii :=
  let n := nat_of_ascii c in
  if bool_decide (97 ≤ n ≤ 122)%nat then ascii_of_nat (n - 32) else c.

Definition capitalize (s : string) : string :=
  match s with
  | EmptyString => EmptyString
  | String c s' => String (upper c) s'
  end.

(** [saveVideo] *)
Definition saveVideo (r : State) : M unit :=
  if negb (isAuthenticated r) then
    alert "Please log in to save your anime opening!"
  else
    try_catch
      (let headers :=
         ([("Content-Type", "application/json")]
            ++ (if negb (String.eqb (authToken r) "")
                then [("Authorization", "Bearer " +:+ authToken r)] else [])) in
       response <~ fetch (mkRequest "POST" (API_URL +:+ "/api/save-opening") headers
                            (JsonBody (VObj
                               [("opening_id", js_or (taskId r) (VStr "latest"));
                                ("title", VStr ("My " +:+ capitalize (videoTheme r)
                                                  +:+ " Anime Opening"))]))) ;;
       check_ok response ;;
       data <~ response_json response ;;
       success <~ prop data "success" ;;
       if truthy success then alert "Your anime opening has been saved!"
       else alert "Failed to save your anime opening. Please try again.")
      (λ error,
         console_error "Error saving anime opening:" error ;;
         alert "Failed to save your anime opening. Please try again.").

(** ** The file chooser: [handleImageUpload]

    An entry of [e.target.files]: the file object, its [name], and what
    [FileReader.readAsDataURL] hands to [onload]; [None] when the read
    fails, in which case [onload] never fires (no [onerror] is set) and
    the promise of that file stays pending. *)
Record Upload : Type := mkUpload {
  handle : string;
  fileName : string;
  dataURL : option string
}.

(** The value a file's promise resolves with. *)
Definition decode (f : Upload) : option Image :=
  match dataURL f with
  | Some url => Some (mkImage (handle f) url (fileName f))
  | None => None
  end.

(** [Promise.all(imagePromises)]: the results in the order of the input,
    once every promise has resolved; pending for ever otherwise. *)
Fixpoint promise_all (files : list Upload) : option (list Image) :=
  match files with
  | [] => Some []
  | f :: files' =>
      match decode f, promise_all files' with
      | Some image, Some rest => Some (image :: rest)
      | _, _ => None
      end
  end.

(** [handleImageUpload]; [setImages(prev => [...prev, ...newImages])]
    reads the live buffer. The reads are taken to have finished by the
    time the handler is done. *)
Definition handleImageUpload (files : list Upload) : M unit :=
  match promise_all files with
  | Some newImages => λ w rs, set (SetImages (images (st w) ++ newImages)) w rs
  | None => ret tt
  end.

(** ** The page: which render a click reaches

    A click runs the handler of the current render, so its snapshot is the
    live state; [disabled={isGenerating || images.length === 0}] keeps the
    generate button from firing. [generate_enabled] is that attribute
    alone: the button is moreover rendered only under [isAuthenticated]. *)
Definition generate_enabled (s : State) : bool :=
  negb (isGenerating s || bool_decide (length (images s) = 0%nat)).

Definition click_generate : M unit :=
  λ w rs, if generate_enabled (st w) then generateOpening (st w) w rs else Val tt w rs.

Definition click_remove (index : Z) : M unit :=
  λ w rs, removeImage (st w) index w rs.

Definition click_save : M unit :=
  λ w rs, saveVideo (st w) w rs.

(** The save button is rendered inside [isAuthenticated ? ..] and
    [generatedVideo && ..]. *)
Definition save_visible (s : State) : bool :=
  isAuthenticated s
  && match generatedVideo s with
     | Some v => negb (String.eqb v "")
     | None => false
     end.

Definition page_save : M unit :=
  λ w rs, if save_visible (st w) then saveVideo (st w) w rs else Val tt w rs.

(** A process start: the hooks are back at their initial values, the
    durable storage is what the last process left, then the mount effect
    runs. *)
Definition restart (w : World) : World := mkWorld initialState (storage w) [].

(** * Notions used in the statements *)

(** ** Replies and cycles *)


(** The JSON value a cycle works on, when the query succeeded with one
    whose properties can be read. *)
Definition poll_data (reply : Reply) : option jsval :=
  match reply with
  | Resp (mkResponse true _ (Some data)) =>
      match data with
      | VUndefined | VNull => None
      | _ => Some data
      end
  | _ => None
  end.

(** [v.k] where it does not throw. *)
Definition field (v : jsval) (k : string) : jsval :=
  default VUndefined (get_prop v k).

(** What a cycle whose query was answered by [reply] returns: [true] on
    a terminal status, unless turning the result reference or the failure
    message into text throws, which the [catch] turns into [false];
    [false] on everything else. [None] when that text is not defined. *)
Definition verdict (reply : Reply) : option bool :=
  match reply with
  | Resp (mkResponse true _ (Some (VObj fields))) =>
      if is_str (lookup_field "status" fields) "completed" then
        if truthy (lookup_field "result" fields)
           && truthy (field (lookup_field "result" fields) "video_url")
        then match toString (field (lookup_field "result" fields) "video_url") with
             | Chars _ => Some true
             | NoString => Some false
             | Unknown => None
             end
        else Some true
      else if is_str (lookup_field "status" fields) "failed" then
        match toString (lookup_field "message" fields) with
        | Chars _ => Some true
        | NoString => Some false
        | Unknown => None
        end
      else Some false
  | _ => Some false
  end.

(** The world one cycle leaves behind, by running the code on the reply. *)
Definition after_poll (tid : jsval) (reply : Reply) (w : World) : World :=
  match checkGenerationProgress tid w [reply] with
  | Val _ w' _ | Exn _ w' _ | Await w' | OutOfFuel w' | Beyond w' => w'
  end.

(** The world after a run of cycles, two seconds apart. *)
Definition poll_all (tid : jsval) (replies : list Reply) (w : World) : World :=
  fold_left (λ w reply, after_poll tid reply (emit (ETimeout 2000) w)) replies w.

(** What the simulated ramp does: eleven values, ten apart, each held for
    500 ms. *)
Definition ramp_events : list Event :=
  flat_map (λ k, [ESet (SetGenerationProgress (VNum (10 * Z.of_nat k)));
                  ETimeout 500])
           (seq 0 11).

(** The world the ramp leaves behind. *)
Definition ramped (w : World) : World :=
  mkWorld (apply_update (SetGenerationProgress (VNum 100)) (st w))
          (storage w) (trace w ++ ramp_events).

(** The world once the submission has been answered with a task id. *)
Definition submitted (r : State) (data tid : jsval) (w : World) : World :=
  set_state (SetTaskId tid)
    (emit (ELog "Generation started:" data)
       (emit (EFetch (submit_request r))
          (set_state (SetGenerationProgress (VNum 0))
             (set_state (SetIsGenerating true) w)))).

(** The world in which the submission request is in flight. *)
Definition submitting (r : State) (w : World) : World :=
  emit (EFetch (submit_request r))
    (set_state (SetGenerationProgress (VNum 0))
       (set_state (SetIsGenerating true) w)).

(** Status queries in a trace. *)
Definition is_status_query (e : Event) : bool :=
  match e with
  | EFetch req => String.eqb (method req) "GET"
  | _ => false
  end.

Definition status_queries (t : list Event) : nat :=
  length (List.filter is_status_query t).

(** ** Outcomes *)

(** The world an outcome leaves. *)
Definition world_of {A} (x : res A) : World :=
  match x with
  | Val _ w _ | Exn _ w _ | Await w | OutOfFuel w | Beyond w => w
  end.

(** No error has left the handler. *)
Definition caught {A} (x : res A) : Prop :=
  match x with
  | Exn _ _ _ => False
  | _ => True
  end.

(** What the handler returned, when it did. *)
Definition returned {A} (x : res A) : option A :=
  match x with
  | Val a _ _ => Some a
  | _ => None
  end.

(** Nothing but the generation fields differs between two worlds: the
    buffer, the theme, the session and the storage are the same. *)
Definition same_frame (w w' : World) : Prop :=
  storage w' = storage w ∧
  images (st w') = images (st w) ∧
  videoTheme (st w') = videoTheme (st w) ∧
  isAuthenticated (st w') = isAuthenticated (st w) ∧
  userName (st w') = userName (st w) ∧
  authToken (st w') = authToken (st w).

(** The waits of the polling loop in a trace. *)
Definition is_poll_wait (e : Event) : bool :=
  match e with
  | ETimeout ms => ms =? 2000
  | _ => false
  end.

Definition poll_waits (t : list Event) : nat :=
  length (List.filter is_poll_wait t).

(** Requests of any kind in a trace. *)
Definition is_request (e : Event) : bool :=
  match e with
  | EFetch _ => true
  | _ => false
  end.

Definition requests (t : list Event) : nat :=
  length (List.filter is_request t).

(** ** Submissions that fail

    What the submission logs before it throws, and the error it throws:
    a transport failure, an error status, a body that is not JSON, or a
    JSON [null], whose [task_id] cannot be read. *)
Definition submit_fault (reply : Reply) : option (list Event * Err) :=
  match reply with
  | NetworkError => Some ([], FetchFailed)
  | Resp resp =>
      if ok resp then
        match json resp with
        | None => Some ([], SyntaxErr)
        | Some data =>
            match get_prop data "task_id" with
            | None => Some ([ELog "Generation started:" data], TypeErr)
            | Some _ => None
            end
        end
      else Some ([], ApiError ("API error: " +:+ pretty (status resp)))
  end.

(** ** Saving *)

(** The request [saveVideo] sends. *)
Definition save_request (r : State) : Request :=
  mkRequest "POST" (API_URL +:+ "/api/save-opening")
    ([("Content-Type", "application/json")]
       ++ (if negb (String.eqb (authToken r) "")
           then [("Authorization", "Bearer " +:+ authToken r)] else []))
    (JsonBody (VObj
       [("opening_id", js_or (taskId r) (VStr "latest"));
        ("title", VStr ("My " +:+ capitalize (videoTheme r) +:+ " Anime Opening"))])).

(** The reply makes [saveVideo] report success: an ok response whose JSON
    value has a truthy [success]. *)
Definition save_succeeded (reply : Reply) : bool :=
  match reply with
  | Resp (mkResponse true _ (Some data)) => truthy (field data "success")
  | _ => false
  end.

(** ** The session *)

(** The in-memory session and the stored credential agree: when
    authenticated, the token is not empty and is the one in storage. *)
Definition session_consistent (w : World) : Prop :=
  if isAuthenticated (st w)
  then authToken (st w) ≠ "" ∧
       storage w !! "auth_token" = Some (authToken (st w)) ∧
       userName (st w) = "HackathonUser"
  else authToken (st w) = "" ∧ userName (st w) = "".

(** ** Concrete inputs *)

Definition ex_image : Image := mkImage "a.png" "data:image/png;base64,AAAA" "a.png".

(** A render with two staged images; [gen] is its [isGenerating]. *)
Definition ex_render (gen : bool) : State :=
  mkState [ex_image; ex_image] gen None "action" true "HackathonUser"
    (VNum 0) "hackathon-demo-token-x" VNull.

Definition ex_world : World := mkWorld (ex_render false) ∅ [].

(** A world in which job [tid] is being generated at progress [p]. *)
Definition ex_polling (tid : string) (p : Z) : World :=
  mkWorld (mkState [ex_image; ex_image] true None "action" true "HackathonUser"
             (VNum p) "hackathon-demo-token-x" (VStr tid)) ∅ [].

Definition ok_reply (data : jsval) : Reply := Resp (mkResponse true 200 (Some data)).

Definition ex_status (s : string) (p : Z) : Reply :=
  ok_reply (VObj [("status", VStr s); ("progress", VNum p)]).

Definition ex_completed (video_url : string) : Reply :=
  ok_reply (VObj [("status", VStr "completed"); ("progress", VNum 100);
                  ("result", VObj [("video_url", VStr video_url)])]).

Definition ex_upload (n : string) : Upload :=
  mkUpload n n (Some ("data:image/png;base64," +:+ n)).

Definition ex_unreadable (n : string) : Upload := mkUpload n n None.

Definition ex_authenticated : World :=
  mkWorld (ex_render false) {["auth_token" := "hackathon-demo-token-x"]} [].

(** A parsed object with an own [toString] key: it has no text. *)
Definition ex_no_text : jsval := VObj [("toString", VNum 1)].


(** * Properties *)

(** ** Unfolding the monad *)

Ltac run :=
  unfold set, alert, console_log, console_error, sleep, setItem, removeItem,
    getItem, check_ok, response_json, prop, to_text, fetch, try_catch, act,
    throw,
    bind, ret in *;
  simpl in *.

Arguments toString : simpl never.
Arguments pretty : simpl never.

(** ** The staging buffer: [removeImage] *)

Section Filter.
Context {A : Type}.
Implicit Types (l : list A) (i index : Z).

Lemma filter_from_keep l i index :
  index < i ∨ i + Z.of_nat (length l) ≤ index →
  filter_from (λ _ j, negb (j =? index)) i l = l.
Proof.
  revert i. induction l as [|x l IH]; intros i Hout; simpl; [done|].
  simpl in Hout.
  destruct (Z.eqb_spec i index) as [->|Hne]; simpl; [lia|].
  f_equal. apply IH. lia.
Qed.

Lemma filter_from_drop l i index :
  i ≤ index < i + Z.of_nat (length l) →
  filter_from (λ _ j, negb (j =? index)) i l
  = (take (Z.to_nat (index - i)) l ++ drop (S (Z.to_nat (index - i))) l).
Proof.
  revert i. induction l as [|x l IH]; intros i Hin; simpl in *; [lia|].
  destruct (Z.eqb_spec i index) as [->|Hne]; simpl.
  - rewrite Z.sub_diag. simpl. rewrite drop_0.
    apply filter_from_keep. lia.
  - replace (Z.to_nat (index - i)) with (S (Z.to_nat (index - (i + 1)))) by lia.
    simpl. f_equal. apply IH. lia.
Qed.

Lemma filter_from_sublist (p : A → Z → bool) l i :
  sublist (filter_from p i l) l.
Proof.
  revert i. induction l as [|x l IH]; intros i; simpl; [constructor|].
  destruct (p x i); [apply sublist_skip | apply sublist_cons]; apply IH.
Qed.
End Filter.

Lemma removeImage_run r index w rs :
  removeImage r index w rs
  = Val tt (set_state (SetImages (js_filter (λ _ i, negb (i =? index)) (images r))) w) rs.
Proof. reflexivity. Qed.

(** C9. Removing at [index] from the buffer on display drops exactly the
    asset at that position when [index] is in range, leaves the buffer as
    it is when [index] is out of range, and in both cases keeps the
    remaining assets in their order. *)
Theorem removeImage_spec (w : World) (index : Z) (rs : list Reply) :
  let l := images (st w) in
  ∃ l', click_remove index w rs = Val tt (set_state (SetImages l') w) rs ∧
        (0 ≤ index < Z.of_nat (length l) →
           l' = (take (Z.to_nat index) l ++ drop (S (Z.to_nat index)) l)) ∧
        (¬ (0 ≤ index < Z.of_nat (length l)) → l' = l) ∧
        sublist l' l.
Proof.
  intros l. exists (js_filter (λ _ i, negb (i =? index)) l).
  split; [apply removeImage_run|]. unfold js_filter. repeat split.
  - intros Hin. rewrite filter_from_drop by lia. by rewrite Z.sub_0_r.
  - intros Hout. apply filter_from_keep. lia.
  - apply filter_from_sublist.
Qed.

(** ** The session: [handleLogin], [handleLogout] and the mount effect *)

Lemma handleLogout_run w rs :
  ∃ w', handleLogout w rs = Val tt w' rs ∧
        storage w' = delete "auth_token" (storage w) ∧
        authToken (st w') = "" ∧ isAuthenticated (st w') = false.
Proof. eexists. split; [reflexivity|]. done. Qed.

(** C8. Login stores the credential in memory and in [localStorage] under
    the key [auth_token]; a process started on that storage is
    authenticated with the same credential by the mount effect alone;
    logout clears the memory and the storage, and a process started
    afterwards is unauthenticated. *)
Theorem session_roundtrip (rand : string) (w : World) (rs : list Reply) :
  let token := "hackathon-demo-token-" +:+ rand in
  ∃ w1 w2 w3 w4,
    handleLogin rand w rs = Val tt w1 rs ∧
    storage w1 !! "auth_token" = Some token ∧
    authToken (st w1) = token ∧ isAuthenticated (st w1) = true ∧
    mountEffect (restart w1) rs = Val tt w2 rs ∧
    authToken (st w2) = token ∧ isAuthenticated (st w2) = true ∧
    storage w2 = storage w1 ∧
    trace w2 = [ESet (SetAuthToken token); ESet (SetIsAuthenticated true);
                ESet (SetUserName "HackathonUser")] ∧
    handleLogout w2 rs = Val tt w3 rs ∧
    storage w3 !! "auth_token" = None ∧
    authToken (st w3) = "" ∧ isAuthenticated (st w3) = false ∧
    mountEffect (restart w3) rs = Val tt w4 rs ∧
    authToken (st w4) = "" ∧ isAuthenticated (st w4) = false ∧ trace w4 = [].
Proof.
  intros token.
  set (w1 := mkWorld
         (apply_update (SetUserName "HackathonUser")
            (apply_update (SetIsAuthenticated true)
               (apply_update (SetAuthToken token) (st w))))
         (<["auth_token" := token]> (storage w))
         (trace w ++ [ESet (SetAuthToken token); ESet (SetIsAuthenticated true);
                      ESet (SetUserName "HackathonUser");
                      EStore "auth_token" (Some token)])).
  assert (Hlogin : handleLogin rand w rs = Val tt w1 rs).
  { unfold handleLogin. run. unfold set_state, w1. simpl.
    by rewrite <- !app_assoc. }
  assert (Hget : storage w1 !! "auth_token" = Some token)
    by apply lookup_insert_eq.
  assert (Hmount : ∃ w2, mountEffect (restart w1) rs = Val tt w2 rs ∧
            st w2 = apply_update (SetUserName "HackathonUser")
                      (apply_update (SetIsAuthenticated true)
                         (apply_update (SetAuthToken token) initialState)) ∧
            storage w2 = storage w1 ∧
            trace w2 = [ESet (SetAuthToken token); ESet (SetIsAuthenticated true);
                        ESet (SetUserName "HackathonUser")]).
  { unfold mountEffect. run. rewrite Hget. simpl. eexists. split; [reflexivity|]. done. }
  destruct Hmount as (w2 & Hm & Hst2 & Hsto2 & Htr2).
  destruct (handleLogout_run w2 rs) as (w3 & Hout & Hsto3 & Htok3 & Hauth3).
  assert (Hget3 : storage w3 !! "auth_token" = None)
    by (rewrite Hsto3; apply lookup_delete_eq).
  exists w1, w2, w3, (restart w3).
  rewrite Hst2. repeat split; try done.
  unfold mountEffect. run. by rewrite Hget3.
Qed.

(** ** Rejected calls *)

(** C7. With no authenticated session in the render, [saveVideo] tells
    the user to log in and returns: no request is issued, no reply is
    consumed, and neither the state nor the storage changes. *)
Theorem saveVideo_unauthenticated (r : State) (w : World) (rs : list Reply) :
  isAuthenticated r = false →
  saveVideo r w rs
  = Val tt (emit (EAlert "Please log in to save your anime opening!") w) rs.
Proof. intros H. unfold saveVideo. rewrite H. reflexivity. Qed.

Lemma saveVideo_unauthenticated_witness :
  isAuthenticated initialState = false ∧
  saveVideo initialState (mkWorld initialState ∅ []) [NetworkError]
  = Val tt (emit (EAlert "Please log in to save your anime opening!")
              (mkWorld initialState ∅ [])) [NetworkError].
Proof.
  split; [reflexivity|].
  apply (saveVideo_unauthenticated initialState (mkWorld initialState ∅ []) [NetworkError]).
  reflexivity.
Defined.

(** C4. With an empty buffer in the render, [generateOpening] tells the
    user to upload an image and returns: no request is issued, no reply is
    consumed, and neither the state nor the storage changes. *)
Theorem generateOpening_empty (r : State) (w : World) (rs : list Reply) :
  images r = [] →
  generateOpening r w rs
  = Val tt (emit (EAlert "Please upload at least one image!") w) rs.
Proof. intros H. unfold generateOpening. rewrite H. reflexivity. Qed.

Lemma generateOpening_empty_witness :
  images initialState = [] ∧
  generateOpening initialState (mkWorld initialState ∅ []) [NetworkError]
  = Val tt (emit (EAlert "Please upload at least one image!")
              (mkWorld initialState ∅ [])) [NetworkError].
Proof.
  split; [reflexivity|].
  apply (generateOpening_empty initialState (mkWorld initialState ∅ []) [NetworkError]).
  reflexivity.
Defined.

(** ** One polling cycle *)

Arguments checkGenerationProgress : simpl never.
Arguments pollLoop : simpl never.
Arguments rampLoop : simpl never.

Lemma truthy_get_prop v k : truthy v = true → get_prop v k ≠ None.
Proof. by destruct v. Qed.

(** Every path of a cycle, on any script. *)
Ltac cycle_paths :=
  unfold after_poll, checkGenerationProgress, verdict, field;
  run;
  repeat (case_match; simplify_eq/=);
  try match goal with
      | Ht : truthy ?v = true, Hg : get_prop ?v _ = None |- _ =>
          by destruct (truthy_get_prop _ _ Ht Hg)
      end.

(** The paths of a cycle whose task id has the text [Hid] says, on
    [reply]. *)
Ltac poll_cases Hid reply :=
  destruct reply as [|[[] ? [[]|]]];
  unfold after_poll, checkGenerationProgress, verdict, field, to_text;
  rewrite ?Hid;
  cycle_paths.

(** A cycle whose task id has a text makes its query, consumes exactly
    its own reply and returns the verdict on it. *)
Lemma checkGenerationProgress_run tid id w reply rs b :
  toString tid = Chars id → verdict reply = Some b →
  checkGenerationProgress tid w (reply :: rs) = Val b (after_poll tid reply w) rs.
Proof.
  intros Hid. revert b. poll_cases Hid reply; intros ??; by simplify_eq.
Qed.

Lemma checkGenerationProgress_beyond tid id w reply rs :
  toString tid = Chars id → verdict reply = None →
  checkGenerationProgress tid w (reply :: rs) = Beyond (after_poll tid reply w).
Proof. intros Hid. poll_cases Hid reply; intros ?; by simplify_eq. Qed.

Lemma checkGenerationProgress_await tid id w :
  toString tid = Chars id →
  checkGenerationProgress tid w [] = Await (emit (EFetch (status_request id)) w).
Proof. intros Hid. unfold checkGenerationProgress. run. by rewrite Hid. Qed.

(** A task id without a text: the URL cannot be built, the query is never
    made, the error is logged and the cycle reports [false]. *)
Lemma checkGenerationProgress_no_text tid w rs :
  toString tid = NoString →
  checkGenerationProgress tid w rs
  = Val false (emit (EError "Error checking generation status:" TypeErr) w) rs.
Proof. intros Hid. unfold checkGenerationProgress. run. by rewrite Hid. Qed.

Lemma checkGenerationProgress_unknown tid w rs :
  toString tid = Unknown → checkGenerationProgress tid w rs = Beyond w.
Proof. intros Hid. unfold checkGenerationProgress. run. by rewrite Hid. Qed.

Lemma checkGenerationProgress_no_exn tid w rs e w' rs' :
  checkGenerationProgress tid w rs ≠ Exn e w' rs'.
Proof.
  destruct (toString tid) as [id| |] eqn:Hid.
  - destruct rs as [|reply rs];
      [by rewrite (checkGenerationProgress_await _ id)|].
    destruct (verdict reply) as [b|] eqn:Hb.
    + by rewrite (checkGenerationProgress_run _ id _ _ _ b).
    + by rewrite (checkGenerationProgress_beyond _ id).
  - by rewrite checkGenerationProgress_no_text.
  - by rewrite checkGenerationProgress_unknown.
Qed.

(** ** The polling loop *)

Lemma pollLoop_S fuel r tid completed :
  pollLoop (S fuel) r tid completed
  = if negb completed && isGenerating r then
      sleep 2000 ;;
      completed' <~ checkGenerationProgress tid ;;
      pollLoop fuel r tid completed'
    else ret tt.
Proof. reflexivity. Qed.

(** The loop tests the [isGenerating] of the render that started it: when
    that is [false] not a single query is made. *)
Lemma pollLoop_stale fuel r tid completed w rs :
  isGenerating r = false → pollLoop (S fuel) r tid completed w rs = Val tt w rs.
Proof. intros H. rewrite pollLoop_S, H, andb_false_r. reflexivity. Qed.

Lemma pollLoop_completed fuel r tid w rs :
  pollLoop (S fuel) r tid true w rs = Val tt w rs.
Proof. reflexivity. Qed.

(** One round of a running loop. *)
Lemma pollLoop_round fuel r tid w rs :
  isGenerating r = true →
  pollLoop (S fuel) r tid false w rs
  = match checkGenerationProgress tid (emit (ETimeout 2000) w) rs with
    | Val completed w' rs' => pollLoop fuel r tid completed w' rs'
    | Exn e w' rs' => Exn e w' rs'
    | Await w' => Await w'
    | OutOfFuel w' => OutOfFuel w'
    | Beyond w' => Beyond w'
    end.
Proof. intros H. rewrite pollLoop_S, H. reflexivity. Qed.

Lemma pollLoop_step fuel r tid id w reply rs b :
  isGenerating r = true → toString tid = Chars id → verdict reply = Some b →
  pollLoop (S fuel) r tid false w (reply :: rs)
  = pollLoop fuel r tid b (after_poll tid reply (emit (ETimeout 2000) w)) rs.
Proof.
  intros H Hid Hb. rewrite pollLoop_round by done.
  by rewrite (checkGenerationProgress_run _ id _ _ _ b).
Qed.

Lemma pollLoop_await fuel r tid id w :
  isGenerating r = true → toString tid = Chars id →
  pollLoop (S fuel) r tid false w []
  = Await (emit (EFetch (status_request id)) (emit (ETimeout 2000) w)).
Proof.
  intros H Hid. rewrite pollLoop_round by done.
  by rewrite (checkGenerationProgress_await _ id).
Qed.

(** The loop ends on the first reply whose verdict is [true]. *)
Lemma pollLoop_final r tid id pre t :
  isGenerating r = true → toString tid = Chars id →
  Forall (λ reply, verdict reply = Some false) pre →
  verdict t = Some true →
  ∀ fuel w rest, (length pre + 2 ≤ fuel)%nat →
    pollLoop fuel r tid false w (pre ++ t :: rest)
    = Val tt (poll_all tid (pre ++ [t]) w) rest.
Proof.
  intros Hgen Hid Hpre Ht.
  induction Hpre as [|reply pre Hreply _ IH]; intros fuel w rest Hfuel.
  - destruct fuel as [|[|fuel]]; simpl in Hfuel; try lia.
    simpl app. by rewrite (pollLoop_step _ _ _ id _ _ _ true).
  - destruct fuel as [|fuel]; simpl in Hfuel; try lia.
    simpl app. rewrite (pollLoop_step _ _ _ id _ _ _ false) by done.
    rewrite IH by lia. reflexivity.
Qed.

Lemma pollLoop_no_exn fuel r tid completed w rs e w' rs' :
  pollLoop fuel r tid completed w rs ≠ Exn e w' rs'.
Proof.
  revert completed w rs. induction fuel as [|fuel IH]; intros completed w rs; [done|].
  destruct completed; [done|].
  destruct (isGenerating r) eqn:Hgen; [|by rewrite pollLoop_stale].
  rewrite pollLoop_round by done.
  destruct (checkGenerationProgress tid (emit (ETimeout 2000) w) rs) eqn:E;
    [apply IH| |done..].
  by destruct (checkGenerationProgress_no_exn _ _ _ _ _ _ E).
Qed.

(** With a task id that has a text, the fuel [generateOpening] gives the
    loop is never used up: every cycle takes one reply off the script. *)
Lemma pollLoop_fuel fuel r tid id completed w rs w' :
  toString tid = Chars id →
  (length rs < fuel)%nat →
  pollLoop fuel r tid completed w rs ≠ OutOfFuel w'.
Proof.
  intros Hid. revert completed w rs.
  induction fuel as [|fuel IH]; intros completed w rs Hfuel; [lia|].
  destruct completed; [done|].
  destruct (isGenerating r) eqn:Hgen; [|by rewrite pollLoop_stale].
  destruct rs as [|reply rs].
  - by rewrite (pollLoop_await _ _ _ id).
  - destruct (verdict reply) as [b|] eqn:Hb.
    + rewrite (pollLoop_step _ _ _ id _ _ _ b) by done. apply IH.
      simpl in Hfuel. lia.
    + rewrite pollLoop_round by done.
      by rewrite (checkGenerationProgress_beyond _ id).
Qed.

Lemma try_catch_pollLoop fuel r tid w rs (h : Err → M unit) :
  try_catch (pollLoop fuel r tid false) h w rs = pollLoop fuel r tid false w rs.
Proof.
  unfold try_catch.
  destruct (pollLoop fuel r tid false w rs) eqn:E; try done.
  by destruct (pollLoop_no_exn _ _ _ _ _ _ _ _ _ E).
Qed.

(** ** The simulated ramp *)

Lemma rampLoop_S fuel i s sto tr rs :
  i ≤ 100 →
  rampLoop (S fuel) i (mkWorld s sto tr) rs
  = rampLoop fuel (i + 10)
      (mkWorld (apply_update (SetGenerationProgress (VNum i)) s) sto
         (tr ++ [ESet (SetGenerationProgress (VNum i)); ETimeout 500])) rs.
Proof.
  intros Hi. unfold rampLoop at 1. fold rampLoop.
  destruct (Z.leb_spec i 100) as [_|?]; [|lia].
  unfold bind, set, sleep, act, set_state, emit. cbn [st storage trace].
  by rewrite <- app_assoc.
Qed.

Lemma rampLoop_end fuel i w rs :
  100 < i → rampLoop (S fuel) i w rs = Val tt w rs.
Proof.
  intros Hi. unfold rampLoop. by destruct (Z.leb_spec i 100) as [?|_]; [lia|].
Qed.

Lemma rampLoop_run w rs : rampLoop 12 0 w rs = Val tt (ramped w) rs.
Proof.
  destruct w as [s sto tr]. unfold ramped.
  do 11 (rewrite rampLoop_S by lia; rewrite <- ?app_assoc; simpl).
  by rewrite rampLoop_end by lia.
Qed.

(** ** Submission *)

Lemma images_nonempty (r : State) :
  images r ≠ [] → bool_decide (length (images r) = 0%nat) = false.
Proof. intros H. apply bool_decide_eq_false. by destruct (images r). Qed.

Lemma generateOpening_await r w :
  images r ≠ [] → generateOpening r w [] = Await (submitting r w).
Proof. intros H. unfold generateOpening. by rewrite images_nonempty. Qed.

Lemma generateOpening_task r w status data tid rs :
  images r ≠ [] → get_prop data "task_id" = Some tid → truthy tid = true →
  generateOpening r w (Resp (mkResponse true status (Some data)) :: rs)
  = pollLoop (S (length rs)) r tid false (submitted r data tid w) rs.
Proof.
  intros Himg Hget Htid. unfold generateOpening. rewrite images_nonempty by done.
  unfold bind at 1 2. unfold set at 1 2. unfold act.
  rewrite <- (try_catch_pollLoop _ _ _ _ _
    (λ error, console_error "Error generating anime opening:" error ;;
              set (SetIsGenerating false) ;;
              alert "Failed to generate anime opening. Please try again.")).
  unfold try_catch. run. rewrite Hget. simpl. rewrite Htid. reflexivity.
Qed.

Lemma generateOpening_ramp r w status data tid rs :
  images r ≠ [] → get_prop data "task_id" = Some tid → truthy tid = false →
  generateOpening r w (Resp (mkResponse true status (Some data)) :: rs)
  = Val tt
      (set_state (SetIsGenerating false)
         (set_state (SetGeneratedVideo (Some "/sample-anime-opening.mp4"))
            (ramped (emit (ELog "Generation started:" data) (submitting r w)))))
      rs.
Proof.
  intros Himg Hget Htid. unfold generateOpening. rewrite images_nonempty by done.
  cbv beta iota zeta delta [bind try_catch prop ret set act fetch check_ok
                       response_json console_log ok json].
  rewrite Hget. cbv beta iota. rewrite Htid. by rewrite rampLoop_run.
Qed.

Lemma status_queries_app t1 t2 :
  status_queries (t1 ++ t2) = (status_queries t1 + status_queries t2)%nat.
Proof. unfold status_queries. by rewrite List.filter_app, length_app. Qed.

(** C5. For a non-empty buffer, any theme and any credential, a
    submission answered with a task id leaves a job that is generating
    with progress 0 and that task id; progress is put to 0 before the
    request goes out. What runs next is the polling loop, which for the
    render of an enabled button ends at once. *)
Theorem generateOpening_submitted
    (r : State) (w : World) (status : Z) (data tid : jsval) (rs : list Reply) :
  images r ≠ [] → get_prop data "task_id" = Some tid → truthy tid = true →
  let w' := submitted r data tid w in
  generateOpening r w [] = Await (submitting r w) ∧
  generationProgress (st (submitting r w)) = VNum 0 ∧
  isGenerating (st (submitting r w)) = true ∧
  generateOpening r w (Resp (mkResponse true status (Some data)) :: rs)
  = pollLoop (S (length rs)) r tid false w' rs ∧
  isGenerating (st w') = true ∧
  generationProgress (st w') = VNum 0 ∧
  taskId (st w') = tid ∧
  (isGenerating r = false →
   generateOpening r w (Resp (mkResponse true status (Some data)) :: rs)
   = Val tt w' rs).
Proof.
  intros Himg Hget Htid w'.
  split; [by apply generateOpening_await|].
  do 2 (split; [reflexivity|]).
  split; [by apply generateOpening_task|].
  do 3 (split; [reflexivity|]).
  intros Hstale. rewrite (generateOpening_task _ _ _ _ tid) by done.
  by apply pollLoop_stale.
Qed.

(** C6, as the code has it. A successful submission response whose body
    is a JSON value other than [null] without a truthy task id makes the
    client run the local ramp: progress 0, 10, .., 100, each value held
    for 500 ms, then the placeholder video is published and generation
    ends; not one status query is issued and no further reply is
    consumed. *)
Theorem generateOpening_fallback
    (r : State) (w : World) (status : Z) (data tid : jsval) (rs : list Reply) :
  images r ≠ [] → get_prop data "task_id" = Some tid → truthy tid = false →
  ∃ w',
    generateOpening r w (Resp (mkResponse true status (Some data)) :: rs)
    = Val tt w' rs ∧
    trace w'
    = trace w
      ++ [ESet (SetIsGenerating true); ESet (SetGenerationProgress (VNum 0));
          EFetch (submit_request r); ELog "Generation started:" data]
      ++ ramp_events
      ++ [ESet (SetGeneratedVideo (Some "/sample-anime-opening.mp4"));
          ESet (SetIsGenerating false)] ∧
    generationProgress (st w') = VNum 100 ∧
    generatedVideo (st w') = Some "/sample-anime-opening.mp4" ∧
    isGenerating (st w') = false ∧
    storage w' = storage w ∧
    status_queries (trace w') = status_queries (trace w).
Proof.
  intros Himg Hget Htid. eexists.
  split; [by apply (generateOpening_ramp _ _ _ _ tid)|].
  assert (Htrace :
    trace (set_state (SetIsGenerating false)
             (set_state (SetGeneratedVideo (Some "/sample-anime-opening.mp4"))
                (ramped (emit (ELog "Generation started:" data) (submitting r w)))))
    = trace w
      ++ [ESet (SetIsGenerating true); ESet (SetGenerationProgress (VNum 0));
          EFetch (submit_request r); ELog "Generation started:" data]
      ++ ramp_events
      ++ [ESet (SetGeneratedVideo (Some "/sample-anime-opening.mp4"));
          ESet (SetIsGenerating false)]).
  { unfold ramped, submitting, set_state, emit. cbn [trace].
    by rewrite <- !app_assoc. }
  split; [exact Htrace|].
  do 4 (split; [reflexivity|]).
  rewrite Htrace, status_queries_app. unfold status_queries at 2.
  simpl. lia.
Qed.

(** C6 fails: a successful response with no JSON body, or with the body
    [null], carries no job id either, and the client does not run the
    ramp: reading the body throws, the [catch] turns generation off and
    alerts the failure, and no video is published. *)
Lemma fallback_counterexample :
  (∃ w',
     generateOpening (ex_render false) ex_world [Resp (mkResponse true 200 None)]
     = Val tt w' [] ∧
     generatedVideo (st w') = None ∧
     generationProgress (st w') = VNum 0 ∧
     List.filter (λ e, match e with ETimeout _ => true | _ => false end) (trace w')
     = [] ∧
     last (trace w')
     = Some (EAlert "Failed to generate anime opening. Please try again.")) ∧
  (∃ w',
     generateOpening (ex_render false) ex_world
       [Resp (mkResponse true 200 (Some VNull))]
     = Val tt w' [] ∧
     generatedVideo (st w') = None ∧
     generationProgress (st w') = VNum 0 ∧
     List.filter (λ e, match e with ETimeout _ => true | _ => false end) (trace w')
     = [] ∧
     last (trace w')
     = Some (EAlert "Failed to generate anime opening. Please try again.")).
Proof.
  split; (eexists; split; [vm_compute; reflexivity|by repeat split]).
Qed.

(** ** Progress *)

(** C1, as the code has it. A cycle whose query is answered stores the
    reported progress as it comes: [data.progress] when truthy and 0
    otherwise, whatever the value stored before; a cycle whose query fails
    (transport error, error status, no JSON, [null]) or cannot be made
    (the task id has no text) leaves the stored progress alone. When the
    task id has a text the cycle consumes its reply and returns the
    verdict on it. *)
Theorem checkGenerationProgress_progress
    (tid : jsval) (w : World) (reply : Reply) (rs : list Reply) :
  generationProgress
    (st (world_of (checkGenerationProgress tid w (reply :: rs))))
  = match toString tid, poll_data reply with
    | Chars _, Some data => js_or (field data "progress") (VNum 0)
    | _, _ => generationProgress (st w)
    end ∧
  (∀ id b, toString tid = Chars id → verdict reply = Some b →
     ∃ w', checkGenerationProgress tid w (reply :: rs) = Val b w' rs).
Proof.
  split.
  - destruct (toString tid) as [id| |] eqn:Hid.
    + destruct (verdict reply) as [b|] eqn:Hb.
      * rewrite (checkGenerationProgress_run _ id _ _ _ b) by done.
        clear Hb. cbn [world_of]. poll_cases Hid reply; reflexivity.
      * rewrite (checkGenerationProgress_beyond _ id) by done.
        clear Hb. cbn [world_of]. poll_cases Hid reply; reflexivity.
    + by rewrite checkGenerationProgress_no_text.
    + by rewrite checkGenerationProgress_unknown.
  - intros id b Hid Hb. eexists. by apply (checkGenerationProgress_run _ id).
Qed.

Lemma checkGenerationProgress_progress_witness :
  toString (VStr "job-1") = Chars "job-1" ∧
  verdict (ex_status "in_progress" 30) = Some false ∧
  generationProgress
    (st (world_of (checkGenerationProgress (VStr "job-1") (ex_polling "job-1" 40)
                     [ex_status "in_progress" 30])))
  = VNum 30 ∧
  ∃ w', checkGenerationProgress (VStr "job-1") (ex_polling "job-1" 40)
          [ex_status "in_progress" 30] = Val false w' [].
Proof.
  do 2 (split; [reflexivity|]).
  destruct (checkGenerationProgress_progress (VStr "job-1") (ex_polling "job-1" 40)
              (ex_status "in_progress" 30) []) as [Hp Hrun].
  split; [exact Hp|]. apply (Hrun "job-1" false); reflexivity.
Defined.

(** C1 fails: with 40 stored, a reply reporting 30 stores 30, and a reply
    reporting 150 stores 150. *)
Lemma progress_counterexample :
  generationProgress (st (ex_polling "job-1" 40)) = VNum 40 ∧
  (∃ w', checkGenerationProgress (VStr "job-1") (ex_polling "job-1" 40)
           [ex_status "in_progress" 30] = Val false w' [] ∧
         generationProgress (st w') = VNum 30) ∧
  ¬ (40 ≤ 30) ∧
  (∃ w', checkGenerationProgress (VStr "job-1") (ex_polling "job-1" 40)
           [ex_status "in_progress" 150] = Val false w' [] ∧
         generationProgress (st w') = VNum 150) ∧
  ¬ (0 ≤ 150 ≤ 100).
Proof.
  split; [reflexivity|].
  split; [eexists; split; [vm_compute; reflexivity|reflexivity]|].
  split; [lia|].
  split; [eexists; split; [vm_compute; reflexivity|reflexivity]|].
  lia.
Qed.

(** ** Superseded jobs *)

(** C3, as the code has it. A cycle never looks at the stored task id:
    for task ids that have a text (the only ones a query is made for) the
    state it leaves and the value it returns are the same whichever job
    the query was made for, in particular the same as for the active job,
    and the stored task id stays as it is. *)
Theorem checkGenerationProgress_any_job
    (tid : jsval) (id id' : string) (w : World) (reply : Reply) (rs : list Reply) :
  toString tid = Chars id → toString (taskId (st w)) = Chars id' →
  st (world_of (checkGenerationProgress tid w (reply :: rs)))
  = st (world_of (checkGenerationProgress (taskId (st w)) w (reply :: rs))) ∧
  returned (checkGenerationProgress tid w (reply :: rs))
  = returned (checkGenerationProgress (taskId (st w)) w (reply :: rs)) ∧
  taskId (st (world_of (checkGenerationProgress tid w (reply :: rs))))
  = taskId (st w).
Proof.
  intros Hid Hid'.
  destruct (verdict reply) as [b|] eqn:Hb.
  - rewrite (checkGenerationProgress_run _ id _ _ _ b),
      (checkGenerationProgress_run _ id' _ _ _ b) by done.
    clear Hb. cbn [world_of returned]. split; [|split; [done|]].
    + destruct reply as [|[[] ? [[]|]]];
        unfold after_poll, checkGenerationProgress, to_text;
        rewrite ?Hid, ?Hid'; cycle_paths; reflexivity.
    + poll_cases Hid reply; reflexivity.
  - rewrite (checkGenerationProgress_beyond _ id),
      (checkGenerationProgress_beyond _ id') by done.
    clear Hb. cbn [world_of returned]. split; [|split; [done|]].
    + destruct reply as [|[[] ? [[]|]]];
        unfold after_poll, checkGenerationProgress, to_text;
        rewrite ?Hid, ?Hid'; cycle_paths; reflexivity.
    + poll_cases Hid reply; reflexivity.
Qed.

Lemma checkGenerationProgress_any_job_witness :
  toString (VStr "job-1") = Chars "job-1" ∧
  toString (taskId (st (ex_polling "job-2" 0))) = Chars "job-2" ∧
  st (world_of (checkGenerationProgress (VStr "job-1") (ex_polling "job-2" 0)
                  [ex_completed "/r/job-1.mp4"]))
  = st (world_of (checkGenerationProgress (taskId (st (ex_polling "job-2" 0)))
                    (ex_polling "job-2" 0) [ex_completed "/r/job-1.mp4"])) ∧
  returned (checkGenerationProgress (VStr "job-1") (ex_polling "job-2" 0)
              [ex_completed "/r/job-1.mp4"])
  = returned (checkGenerationProgress (taskId (st (ex_polling "job-2" 0)))
                (ex_polling "job-2" 0) [ex_completed "/r/job-1.mp4"]) ∧
  taskId (st (world_of (checkGenerationProgress (VStr "job-1") (ex_polling "job-2" 0)
                          [ex_completed "/r/job-1.mp4"])))
  = taskId (st (ex_polling "job-2" 0)).
Proof.
  do 2 (split; [reflexivity|]).
  apply (checkGenerationProgress_any_job (VStr "job-1") "job-1" "job-2"
           (ex_polling "job-2" 0) (ex_completed "/r/job-1.mp4") []);
    reflexivity.
Defined.

(** C3 fails: while job-2 is the active job at progress 0, the answer to
    a query for job-1 is applied: it ends the generation and publishes the
    video of job-1. *)
Lemma superseded_counterexample :
  taskId (st (ex_polling "job-2" 0)) = VStr "job-2" ∧
  VStr "job-1" ≠ VStr "job-2" ∧
  ∃ w', checkGenerationProgress (VStr "job-1") (ex_polling "job-2" 0)
          [ex_completed "/r/job-1.mp4"] = Val true w' [] ∧
        st w' ≠ st (ex_polling "job-2" 0) ∧
        generationProgress (st w') = VNum 100 ∧
        isGenerating (st w') = false ∧
        generatedVideo (st w') = Some "http://localhost:8000/r/job-1.mp4".
Proof.
  split; [reflexivity|]. split; [done|].
  eexists. split; [vm_compute; reflexivity|]. by repeat split.
Qed.

(** ** Terminal replies *)

Lemma after_poll_final tid id t w :
  toString tid = Chars id → verdict t = Some true →
  isGenerating (st (after_poll tid t w)) = false.
Proof. intros Hid. poll_cases Hid t; by intros ?. Qed.

Lemma poll_all_snoc tid replies t w :
  poll_all tid (replies ++ [t]) w
  = after_poll tid t (emit (ETimeout 2000) (poll_all tid replies w)).
Proof. unfold poll_all. by rewrite fold_left_app. Qed.




(** C10. A reply with status ['completed'] and no result reference (no
    truthy [result], or no truthy [video_url] in it) still ends the job:
    the cycle reports completion and turns generation off, the published
    video is left as it was, and the loop returns without another query.
    The task id is one for which the query can be made: it has a text. *)
Theorem completed_without_result
    (r : State) (tid : jsval) (id : string) (w : World) (status : Z)
    (fields : list (string * jsval)) (rs : list Reply) (fuel : nat) :
  toString tid = Chars id →
  is_str (lookup_field "status" fields) "completed" = true →
  truthy (lookup_field "result" fields) = false
  ∨ truthy (field (lookup_field "result" fields) "video_url") = false →
  (∃ w', checkGenerationProgress tid w
           (Resp (mkResponse true status (Some (VObj fields))) :: rs)
         = Val true w' rs ∧
         isGenerating (st w') = false ∧
         generatedVideo (st w') = generatedVideo (st w)) ∧
  (isGenerating r = true →
   ∃ w', pollLoop (S (S fuel)) r tid false w
           (Resp (mkResponse true status (Some (VObj fields))) :: rs)
         = Val tt w' rs ∧
         isGenerating (st w') = false ∧
         generatedVideo (st w') = generatedVideo (st w)).
Proof.
  intros Hid Hstatus Hresult.
  assert (Hterm : verdict (Resp (mkResponse true status (Some (VObj fields))))
                  = Some true).
  { simpl. rewrite Hstatus.
    destruct Hresult as [->| ->]; [done|by rewrite andb_false_r]. }
  assert (Hpoll : ∀ w0,
    isGenerating (st (after_poll tid
       (Resp (mkResponse true status (Some (VObj fields)))) w0)) = false ∧
    generatedVideo (st (after_poll tid
       (Resp (mkResponse true status (Some (VObj fields)))) w0))
    = generatedVideo (st w0)).
  { intros w0. split; [by apply (after_poll_final _ id)|].
    unfold after_poll, checkGenerationProgress, field, to_text in *.
    rewrite Hid. run. rewrite Hstatus. simpl.
    destruct (truthy (lookup_field "result" fields)) eqn:Hres; simpl; [|done].
    destruct Hresult as [?|Hurl]; [done|].
    destruct (get_prop (lookup_field "result" fields) "video_url") eqn:Hget; simpl.
    - simpl in Hurl. by rewrite Hurl.
    - by destruct (truthy_get_prop _ _ Hres Hget). }
  split.
  - eexists. split; [by apply (checkGenerationProgress_run _ id)|].
    apply Hpoll.
  - intros Hgen. eexists.
    split; [by rewrite (pollLoop_step _ _ _ id _ _ _ true)|].
    apply (Hpoll (emit (ETimeout 2000) w)).
Qed.

Lemma completed_without_result_witness :
  toString (VStr "job-1") = Chars "job-1" ∧
  is_str (lookup_field "status" [("status", VStr "completed"); ("progress", VNum 100)])
    "completed" = true ∧
  truthy (lookup_field "result" [("status", VStr "completed"); ("progress", VNum 100)])
  = false ∧
  isGenerating (ex_render true) = true ∧
  (∃ w', checkGenerationProgress (VStr "job-1") (ex_polling "job-1" 40)
           [ex_status "completed" 100]
         = Val true w' [] ∧
         isGenerating (st w') = false ∧
         generatedVideo (st w') = generatedVideo (st (ex_polling "job-1" 40))) ∧
  (∃ w', pollLoop 2 (ex_render true) (VStr "job-1") false (ex_polling "job-1" 40)
           [ex_status "completed" 100]
         = Val tt w' [] ∧
         isGenerating (st w') = false ∧
         generatedVideo (st w') = generatedVideo (st (ex_polling "job-1" 40))).
Proof.
  do 4 (split; [reflexivity|]).
  destruct (completed_without_result (ex_render true) (VStr "job-1") "job-1"
              (ex_polling "job-1" 40) 200
              [("status", VStr "completed"); ("progress", VNum 100)] [] 0)
    as [Hcycle Hloop].
  - reflexivity.
  - reflexivity.
  - left. reflexivity.
  - split; [exact Hcycle|]. apply Hloop. reflexivity.
Defined.

(** ** What a click on the page can start *)

(** The generate button is enabled only in a render whose [isGenerating]
    is [false], and that is the value the loop of the started handler
    tests: a run started from the page sets the task id and returns
    without a single status query, leaving generation on. *)
Lemma click_generate_never_polls w status data tid rs :
  generate_enabled (st w) = true →
  get_prop data "task_id" = Some tid → truthy tid = true →
  click_generate w (Resp (mkResponse true status (Some data)) :: rs)
  = Val tt (submitted (st w) data tid w) rs.
Proof.
  intros Hen Hget Htid. unfold click_generate. rewrite Hen.
  unfold generate_enabled in Hen.
  apply negb_true_iff, orb_false_iff in Hen as [Hgen Himg].
  apply bool_decide_eq_false in Himg.
  rewrite (generateOpening_task _ _ _ _ tid); try done.
  - by apply pollLoop_stale.
  - intros E. by rewrite E in Himg.
Qed.

(** ** Witnesses *)

Lemma removeImage_spec_witness :
  0 ≤ 1 < Z.of_nat (length (images (st ex_world))) ∧
  ¬ (0 ≤ 7 < Z.of_nat (length (images (st ex_world)))) ∧
  (∃ l', click_remove 1 ex_world [] = Val tt (set_state (SetImages l') ex_world) [] ∧
         l' = [ex_image]) ∧
  (∃ l', click_remove 7 ex_world [] = Val tt (set_state (SetImages l') ex_world) [] ∧
         l' = [ex_image; ex_image]).
Proof.
  split; [simpl; lia|]. split; [simpl; lia|]. split.
  - destruct (removeImage_spec ex_world 1 []) as (l' & Hrun & Hin & _ & _).
    exists l'. split; [exact Hrun|]. apply Hin. simpl. lia.
  - destruct (removeImage_spec ex_world 7 []) as (l' & Hrun & _ & Hout & _).
    exists l'. split; [exact Hrun|]. apply Hout. simpl. lia.
Defined.

Lemma generateOpening_submitted_witness :
  images (ex_render false) ≠ [] ∧
  get_prop (VObj [("task_id", VStr "job-1")]) "task_id" = Some (VStr "job-1") ∧
  truthy (VStr "job-1") = true ∧
  isGenerating (ex_render false) = false ∧
  generateOpening (ex_render false) ex_world
    [Resp (mkResponse true 200 (Some (VObj [("task_id", VStr "job-1")])));
     ex_status "in_progress" 40]
  = Val tt (submitted (ex_render false) (VObj [("task_id", VStr "job-1")])
              (VStr "job-1") ex_world)
      [ex_status "in_progress" 40] ∧
  generationProgress
    (st (submitted (ex_render false) (VObj [("task_id", VStr "job-1")])
           (VStr "job-1") ex_world)) = VNum 0.
Proof.
  split; [done|]. do 3 (split; [reflexivity|]).
  destruct (generateOpening_submitted (ex_render false) ex_world 200
              (VObj [("task_id", VStr "job-1")]) (VStr "job-1")
              [ex_status "in_progress" 40])
    as (_ & _ & _ & _ & _ & Hzero & _ & Hstale).
  - done.
  - reflexivity.
  - reflexivity.
  - split; [apply Hstale; reflexivity | exact Hzero].
Defined.

Lemma generateOpening_fallback_witness :
  images (ex_render false) ≠ [] ∧
  get_prop (VObj [("message", VStr "queued")]) "task_id" = Some VUndefined ∧
  truthy VUndefined = false ∧
  ∃ w',
    generateOpening (ex_render false) ex_world
      [Resp (mkResponse true 200 (Some (VObj [("message", VStr "queued")])))]
    = Val tt w' [] ∧
    generationProgress (st w') = VNum 100 ∧
    generatedVideo (st w') = Some "/sample-anime-opening.mp4" ∧
    isGenerating (st w') = false ∧
    status_queries (trace w') = status_queries (trace ex_world).
Proof.
  split; [done|]. do 2 (split; [reflexivity|]).
  destruct (generateOpening_fallback (ex_render false) ex_world 200
              (VObj [("message", VStr "queued")]) VUndefined [])
    as (w' & Hrun & _ & Hp & Hv & Hg & _ & Hq).
  - done.
  - reflexivity.
  - reflexivity.
  - exists w'. by repeat split.
Defined.

(** ** The run of the specification's scenario

    Two images, theme [action], the service answers [job-1], then
    [in_progress 40], [in_progress 30] and [completed] with a result. From
    a render whose [isGenerating] is [true] the three cycles run: progress
    goes 40, 30, 100 and the published video is the result path resolved
    against [API_URL]. From the render of the enabled button no cycle
    runs. *)
Example scenario_polled :
  ∃ w', generateOpening (ex_render true) ex_world
          [ok_reply (VObj [("task_id", VStr "job-1")]);
           ex_status "in_progress" 40; ex_status "in_progress" 30;
           ex_completed "/r/job-1.mp4"]
        = Val tt w' [] ∧
        List.filter (λ e, match e with
                          | ESet (SetGenerationProgress _) => true
                          | _ => false
                          end) (trace w')
        = [ESet (SetGenerationProgress (VNum 0));
           ESet (SetGenerationProgress (VNum 40));
           ESet (SetGenerationProgress (VNum 30));
           ESet (SetGenerationProgress (VNum 100))] ∧
        generatedVideo (st w') = Some "http://localhost:8000/r/job-1.mp4" ∧
        isGenerating (st w') = false ∧
        status_queries (trace w') = 3%nat.
Proof. eexists. split; [vm_compute; reflexivity|]. by repeat split. Qed.

Example scenario_clicked :
  click_generate ex_world
    [ok_reply (VObj [("task_id", VStr "job-1")]);
     ex_status "in_progress" 40; ex_status "in_progress" 30;
     ex_completed "/r/job-1.mp4"]
  = Val tt (submitted (ex_render false) (VObj [("task_id", VStr "job-1")])
              (VStr "job-1") ex_world)
      [ex_status "in_progress" 40; ex_status "in_progress" 30;
       ex_completed "/r/job-1.mp4"].
Proof. vm_compute. reflexivity. Qed.

(** * Further properties *)

(** ** The file chooser *)

Lemma promise_all_readable files :
  Forall (λ f, is_Some (dataURL f)) files →
  ∃ imgs, promise_all files = Some imgs ∧
          Forall2 (λ f img, file img = handle f ∧ name img = fileName f ∧
                            dataURL f = Some (preview img)) files imgs.
Proof.
  induction 1 as [|f files [url Hurl] _ (imgs & Hall & Himgs)].
  - exists []. split; [reflexivity|constructor].
  - exists (mkImage (handle f) url (fileName f) :: imgs). split.
    + simpl. unfold decode. by rewrite Hurl, Hall.
    + constructor; [by rewrite Hurl|done].
Qed.

Lemma promise_all_unreadable files :
  Exists (λ f, dataURL f = None) files → promise_all files = None.
Proof.
  induction 1 as [f files Hnone|f files _ IH]; simpl.
  - unfold decode. by rewrite Hnone.
  - rewrite IH. by destruct (decode f).
Qed.

Lemma promise_all_length files imgs :
  promise_all files = Some imgs → length imgs = length files.
Proof.
  revert imgs. induction files as [|f files IH]; intros imgs H; simpl in H.
  - by simplify_eq.
  - destruct (decode f); [|done]. destruct (promise_all files); [|done].
    simplify_eq. simpl. f_equal. by apply IH.
Qed.

(** X1. When every chosen file can be read, the upload appends one image
    per file to the live buffer, after the images already there and in
    the order of the selection; each image carries the file, its name and
    its data URL. Nothing else happens. *)
Theorem handleImageUpload_appends
    (files : list Upload) (w : World) (rs : list Reply) :
  Forall (λ f, is_Some (dataURL f)) files →
  ∃ imgs,
    handleImageUpload files w rs
    = Val tt (set_state (SetImages (images (st w) ++ imgs)) w) rs ∧
    Forall2 (λ f img, file img = handle f ∧ name img = fileName f ∧
                      dataURL f = Some (preview img)) files imgs.
Proof.
  intros Hread. destruct (promise_all_readable files Hread) as (imgs & Hall & Himgs).
  exists imgs. split; [|done]. unfold handleImageUpload. by rewrite Hall.
Qed.

Lemma handleImageUpload_appends_witness :
  Forall (λ f, is_Some (dataURL f)) [ex_upload "b.png"; ex_upload "c.png"] ∧
  ∃ imgs,
    handleImageUpload [ex_upload "b.png"; ex_upload "c.png"] ex_world []
    = Val tt (set_state (SetImages (images (st ex_world) ++ imgs)) ex_world) [] ∧
    Forall2 (λ f img, file img = handle f ∧ name img = fileName f ∧
                      dataURL f = Some (preview img))
      [ex_upload "b.png"; ex_upload "c.png"] imgs.
Proof.
  assert (H : Forall (λ f, is_Some (dataURL f)) [ex_upload "b.png"; ex_upload "c.png"])
    by (repeat constructor; simpl; eauto).
  split; [exact H|].
  apply (handleImageUpload_appends [ex_upload "b.png"; ex_upload "c.png"] ex_world [] H).
Defined.

(** X2. When one of the chosen files cannot be read, none of the
    selection is added: the world is left exactly as it was, without an
    alert or any other sign. *)
Theorem handleImageUpload_all_or_nothing
    (files : list Upload) (w : World) (rs : list Reply) :
  Exists (λ f, dataURL f = None) files →
  handleImageUpload files w rs = Val tt w rs.
Proof.
  intros H. unfold handleImageUpload. by rewrite promise_all_unreadable.
Qed.

Lemma handleImageUpload_all_or_nothing_witness :
  Exists (λ f, dataURL f = None) [ex_upload "b.png"; ex_unreadable "c.png"] ∧
  handleImageUpload [ex_upload "b.png"; ex_unreadable "c.png"] ex_world []
  = Val tt ex_world [].
Proof.
  assert (H : Exists (λ f, dataURL f = None) [ex_upload "b.png"; ex_unreadable "c.png"])
    by (apply Exists_cons_tl, Exists_cons_hd; reflexivity).
  split; [exact H|].
  apply (handleImageUpload_all_or_nothing
           [ex_upload "b.png"; ex_unreadable "c.png"] ex_world [] H).
Defined.

Lemma remove_appended {A} (old new : list A) (k : nat) :
  (k < length new)%nat →
  js_filter (λ _ i, negb (i =? Z.of_nat (length old + k))) (old ++ new)
  = old ++ delete k new.
Proof.
  intros Hk. unfold js_filter. rewrite filter_from_drop.
  - rewrite Z.sub_0_r, Nat2Z.id.
    rewrite take_app_add', <- Nat.add_succ_r, drop_app_add' by done.
    by rewrite <- app_assoc, delete_take_drop.
  - rewrite length_app. lia.
Qed.

(** X3. Upload then remove is a round trip on the buffer: after a
    readable selection has been appended, removing (from the new render)
    the position of its [k]-th file leaves the old buffer followed by the
    selection without that file; for a selection of one file the buffer is
    back to what it was. *)
Theorem upload_then_remove
    (files : list Upload) (k : nat) (w : World) (rs : list Reply) :
  Forall (λ f, is_Some (dataURL f)) files →
  (k < length files)%nat →
  ∃ imgs w',
    promise_all files = Some imgs ∧
    (handleImageUpload files ;;
     click_remove (Z.of_nat (length (images (st w)) + k))) w rs
    = Val tt w' rs ∧
    images (st w') = images (st w) ++ delete k imgs ∧
    (length files = 1%nat → images (st w') = images (st w)).
Proof.
  intros Hread Hk.
  destruct (promise_all_readable files Hread) as (imgs & Hall & _).
  pose proof (promise_all_length _ _ Hall) as Hlen.
  exists imgs. eexists. split; [done|]. split.
  - unfold bind, handleImageUpload. rewrite Hall. reflexivity.
  - cbn [st set_state apply_update images]. rewrite remove_appended by lia.
    split; [done|]. intros Hone.
    destruct imgs as [|img [|??]]; simpl in Hlen; try lia.
    assert (k = 0%nat) as -> by lia. simpl. by rewrite app_nil_r.
Qed.

Lemma upload_then_remove_witness :
  Forall (λ f, is_Some (dataURL f)) [ex_upload "b.png"] ∧
  (0 < length [ex_upload "b.png"])%nat ∧
  ∃ imgs w',
    promise_all [ex_upload "b.png"] = Some imgs ∧
    (handleImageUpload [ex_upload "b.png"] ;;
     click_remove (Z.of_nat (length (images (st ex_world)) + 0))) ex_world []
    = Val tt w' [] ∧
    images (st w') = images (st ex_world) ++ delete 0%nat imgs ∧
    (length [ex_upload "b.png"] = 1%nat → images (st w') = images (st ex_world)).
Proof.
  assert (H : Forall (λ f, is_Some (dataURL f)) [ex_upload "b.png"])
    by (repeat constructor; simpl; eauto).
  split; [exact H|]. split; [simpl; lia|].
  apply (upload_then_remove [ex_upload "b.png"] 0 ex_world [] H). simpl. lia.
Defined.

(** ** Submissions that fail *)

Lemma submit_fault_None reply :
  submit_fault reply = None →
  ∃ status data tid,
    reply = Resp (mkResponse true status (Some data)) ∧
    get_prop data "task_id" = Some tid.
Proof.
  destruct reply as [|[[] status [data|]]]; simpl; try done.
  destruct (get_prop data "task_id") as [tid|] eqn:Hget; [|done].
  intros _. by exists status, data, tid.
Qed.

Lemma generateOpening_empty_buffer r w rs :
  images r = [] →
  generateOpening r w rs
  = Val tt (emit (EAlert "Please upload at least one image!") w) rs.
Proof. intros H. unfold generateOpening. by rewrite H. Qed.

(** The world a failed submission leaves. *)
Lemma generateOpening_fault r w reply log e rs :
  images r ≠ [] → submit_fault reply = Some (log, e) →
  generateOpening r w (reply :: rs)
  = Val tt
      (mkWorld
         (apply_update (SetIsGenerating false)
            (apply_update (SetGenerationProgress (VNum 0)) (st w)))
         (storage w)
         (trace w
            ++ [ESet (SetIsGenerating true); ESet (SetGenerationProgress (VNum 0));
                EFetch (submit_request r)]
            ++ log
            ++ [EError "Error generating anime opening:" e;
                ESet (SetIsGenerating false);
                EAlert "Failed to generate anime opening. Please try again."]))
      rs.
Proof.
  intros Himg Hfault. unfold generateOpening. rewrite images_nonempty by done.
  destruct w as [s sto tr].
  destruct reply as [|[[] status [data|]]]; simpl in Hfault.
  - simplify_eq. run. unfold set_state, emit. simpl. by rewrite <- !app_assoc.
  - destruct (get_prop data "task_id") as [tid|] eqn:Hget; simplify_eq.
    cbv beta iota zeta delta [bind try_catch prop ret set act fetch check_ok
                              response_json console_log console_error alert
                              throw ok json].
    rewrite Hget. unfold set_state, emit. simpl. by rewrite <- !app_assoc.
  - simplify_eq. run. unfold set_state, emit. simpl. by rewrite <- !app_assoc.
  - simplify_eq. run. unfold set_state, emit. simpl. by rewrite <- !app_assoc.
  - simplify_eq. run. unfold set_state, emit. simpl. by rewrite <- !app_assoc.
Qed.

(** X4. A submission that fails (transport failure, error status, a body
    that is not JSON, or JSON [null]) is caught: generation is turned off
    again, progress is 0, the task id and the published video are those of
    before, the user gets the failure alert, and the one request made is
    the submission: no status query follows. *)
Theorem generateOpening_failed
    (r : State) (w : World) (reply : Reply) (log : list Event) (e : Err)
    (rs : list Reply) :
  images r ≠ [] → submit_fault reply = Some (log, e) →
  ∃ w',
    generateOpening r w (reply :: rs) = Val tt w' rs ∧
    isGenerating (st w') = false ∧
    generationProgress (st w') = VNum 0 ∧
    taskId (st w') = taskId (st w) ∧
    generatedVideo (st w') = generatedVideo (st w) ∧
    last (trace w')
    = Some (EAlert "Failed to generate anime opening. Please try again.") ∧
    requests (trace w') = S (requests (trace w)) ∧
    status_queries (trace w') = status_queries (trace w).
Proof.
  intros Himg Hfault. eexists.
  split; [by apply generateOpening_fault|].
  cbn [st trace apply_update isGenerating generationProgress taskId generatedVideo].
  do 4 (split; [reflexivity|]).
  assert (Hlog : requests log = 0%nat ∧ status_queries log = 0%nat).
  { destruct reply as [|[[] status [data|]]]; simpl in Hfault; simplify_eq; try done.
    destruct (get_prop data "task_id"); by simplify_eq. }
  destruct Hlog as [Hreq Hq]. split; [|split].
  - rewrite !app_assoc, last_app. reflexivity.
  - unfold requests in *. rewrite !List.filter_app, !length_app, Hreq. simpl. lia.
  - unfold status_queries in *. rewrite !List.filter_app, !length_app, Hq.
    simpl. lia.
Qed.

Lemma generateOpening_failed_witness :
  images (ex_render false) ≠ [] ∧
  submit_fault (Resp (mkResponse false 500 None))
  = Some ([], ApiError "API error: 500") ∧
  ∃ w',
    generateOpening (ex_render false) ex_world
      [Resp (mkResponse false 500 None); ex_status "in_progress" 40]
    = Val tt w' [ex_status "in_progress" 40] ∧
    isGenerating (st w') = false ∧
    generationProgress (st w') = VNum 0 ∧
    taskId (st w') = taskId (st ex_world) ∧
    generatedVideo (st w') = generatedVideo (st ex_world) ∧
    last (trace w')
    = Some (EAlert "Failed to generate anime opening. Please try again.") ∧
    requests (trace w') = S (requests (trace ex_world)) ∧
    status_queries (trace w') = status_queries (trace ex_world).
Proof.
  split; [done|]. split; [vm_compute; reflexivity|].
  apply (generateOpening_failed (ex_render false) ex_world
           (Resp (mkResponse false 500 None)) [] (ApiError "API error: 500")
           [ex_status "in_progress" 40]).
  - done.
  - vm_compute. reflexivity.
Defined.

(** ** What polling and generation leave alone *)

Lemma same_frame_refl w : same_frame w w.
Proof. by repeat split. Qed.

Lemma same_frame_trans w1 w2 w3 :
  same_frame w1 w2 → same_frame w2 w3 → same_frame w1 w3.
Proof.
  intros (?&?&?&?&?&?) (?&?&?&?&?&?). repeat split; congruence.
Qed.

Lemma after_poll_frame tid id reply w :
  toString tid = Chars id →
  same_frame w (after_poll tid reply w) ∧
  taskId (st (after_poll tid reply w)) = taskId (st w).
Proof. intros Hid. poll_cases Hid reply; by repeat split. Qed.

Lemma cycle_frame tid w rs :
  same_frame w (world_of (checkGenerationProgress tid w rs)) ∧
  taskId (st (world_of (checkGenerationProgress tid w rs))) = taskId (st w).
Proof.
  destruct (toString tid) as [id| |] eqn:Hid.
  - destruct rs as [|reply rs].
    + rewrite (checkGenerationProgress_await _ id) by done. by repeat split.
    + destruct (verdict reply) as [b|] eqn:Hb.
      * rewrite (checkGenerationProgress_run _ id _ _ _ b) by done.
        by apply (after_poll_frame _ id).
      * rewrite (checkGenerationProgress_beyond _ id) by done.
        by apply (after_poll_frame _ id).
  - rewrite checkGenerationProgress_no_text by done. by repeat split.
  - rewrite checkGenerationProgress_unknown by done. by repeat split.
Qed.

Lemma pollLoop_frame fuel r tid completed w rs :
  same_frame w (world_of (pollLoop fuel r tid completed w rs)) ∧
  taskId (st (world_of (pollLoop fuel r tid completed w rs))) = taskId (st w).
Proof.
  revert completed w rs.
  induction fuel as [|fuel IH]; intros completed w rs;
    [split; [apply same_frame_refl|done]|].
  destruct completed; [split; [apply same_frame_refl|done]|].
  destruct (isGenerating r) eqn:Hgen;
    [|rewrite pollLoop_stale by done; split; [apply same_frame_refl|done]].
  rewrite pollLoop_round by done.
  destruct (cycle_frame tid (emit (ETimeout 2000) w) rs) as [Hf Ht].
  destruct (checkGenerationProgress tid (emit (ETimeout 2000) w) rs)
    as [c w1 rs1|e w1 rs1|w1|w1|w1]; simpl in Hf, Ht.
  - destruct (IH c w1 rs1) as [Hf' Ht']. split.
    + eapply same_frame_trans; [|exact Hf']. exact Hf.
    + by rewrite Ht', Ht.
  - done.
  - done.
  - done.
  - done.
Qed.

(** X5. A polling cycle changes nothing but the progress, the generating
    flag and the published video: the buffer, the theme, the session, the
    storage and the stored task id are as before, whatever the reply and
    also while the reply is awaited. *)
Theorem checkGenerationProgress_frame (tid : jsval) (w : World) (rs : list Reply) :
  same_frame w (world_of (checkGenerationProgress tid w rs)) ∧
  taskId (st (world_of (checkGenerationProgress tid w rs))) = taskId (st w).
Proof.
  destruct (toString tid) as [id| |] eqn:Hid.
  - destruct rs as [|reply rs];
      [rewrite (checkGenerationProgress_await _ id) by done; by repeat split|].
    assert (Hout : world_of (checkGenerationProgress tid w (reply :: rs))
                   = after_poll tid reply w).
    { destruct (verdict reply) as [b|] eqn:Hb.
      - by rewrite (checkGenerationProgress_run _ id _ _ _ b).
      - by rewrite (checkGenerationProgress_beyond _ id). }
    rewrite Hout. poll_cases Hid reply; by repeat split.
  - rewrite checkGenerationProgress_no_text by done. by repeat split.
  - rewrite checkGenerationProgress_unknown by done. by repeat split.
Qed.

(** X6. Whatever the buffer, the render and the replies, a run of
    [generateOpening] leaves the staged images, the theme, the session and
    the storage as they were: in particular the buffer is not cleared by a
    submission. *)
Theorem generateOpening_frame (r : State) (w : World) (rs : list Reply) :
  same_frame w (world_of (generateOpening r w rs)).
Proof.
  destruct (images r) as [|img imgs] eqn:Himg.
  { rewrite generateOpening_empty_buffer by done. by repeat split. }
  assert (Hne : images r ≠ []) by (by rewrite Himg).
  destruct rs as [|reply rs].
  { rewrite generateOpening_await by done. by repeat split. }
  destruct (submit_fault reply) as [[log e]|] eqn:Hfault.
  { rewrite (generateOpening_fault _ _ _ log e) by done. by repeat split. }
  destruct (submit_fault_None _ Hfault) as (status & data & tid & -> & Hget).
  destruct (truthy tid) eqn:Htid.
  - rewrite (generateOpening_task _ _ _ _ tid) by done.
    eapply same_frame_trans; [|apply pollLoop_frame]. by repeat split.
  - rewrite (generateOpening_ramp _ _ _ _ tid) by done. by repeat split.
Qed.

(** ** Saving *)

Lemma saveVideo_await r w :
  isAuthenticated r = true →
  saveVideo r w [] = Await (emit (EFetch (save_request r)) w).
Proof. intros H. unfold saveVideo. rewrite H. reflexivity. Qed.

(** X7. For an authenticated render [saveVideo] sends one POST to
    [/api/save-opening], with the bearer header when the token is not
    empty and with the task id of the render, or ['latest'], as
    [opening_id]. Whatever comes back, the state and the storage are
    untouched and the user gets exactly one alert: the success alert when
    the response is ok with a truthy [success], the failure alert in every
    other case, errors included. *)
Theorem saveVideo_outcome (r : State) (w : World) (reply : Reply) (rs : list Reply) :
  isAuthenticated r = true →
  ∃ errors,
    saveVideo r w (reply :: rs)
    = Val tt
        (mkWorld (st w) (storage w)
           (trace w ++ EFetch (save_request r) :: errors
              ++ [EAlert (if save_succeeded reply
                          then "Your anime opening has been saved!"
                          else "Failed to save your anime opening. Please try again.")]))
        rs ∧
    (errors = [] ∨ ∃ e, errors = [EError "Error saving anime opening:" e]).
Proof.
  intros Hauth. unfold saveVideo. rewrite Hauth. destruct w as [s sto tr].
  change (mkRequest "POST" (API_URL +:+ "/api/save-opening") _ _)
    with (save_request r).
  generalize (save_request r). intros req.
  destruct reply as [|[[] status [data|]]];
    cbv beta iota zeta delta [negb bind try_catch prop ret act fetch check_ok
                              response_json console_error alert throw ok json
                              emit st storage trace save_succeeded field].
  - exists [EError "Error saving anime opening:" FetchFailed].
    split; [by rewrite <- !app_assoc|]. eauto.
  - destruct (get_prop data "success") as [success|]; simpl.
    + exists []. split; [|by left]. destruct (truthy success); by rewrite <- !app_assoc.
    + exists [EError "Error saving anime opening:" TypeErr].
      split; [by rewrite <- !app_assoc|]. eauto.
  - exists [EError "Error saving anime opening:" SyntaxErr].
    split; [by rewrite <- !app_assoc|]. eauto.
  - exists [EError "Error saving anime opening:"
              (ApiError ("API error: " +:+ pretty status))].
    split; [by rewrite <- !app_assoc|]. eauto.
  - exists [EError "Error saving anime opening:"
              (ApiError ("API error: " +:+ pretty status))].
    split; [by rewrite <- !app_assoc|]. eauto.
Qed.

Lemma saveVideo_outcome_witness :
  isAuthenticated (ex_render false) = true ∧
  ∃ errors,
    saveVideo (ex_render false) ex_world
      [ok_reply (VObj [("success", VBool true)])]
    = Val tt
        (mkWorld (st ex_world) (storage ex_world)
           (trace ex_world ++ EFetch (save_request (ex_render false)) :: errors
              ++ [EAlert (if save_succeeded (ok_reply (VObj [("success", VBool true)]))
                          then "Your anime opening has been saved!"
                          else "Failed to save your anime opening. Please try again.")]))
        [] ∧
    (errors = [] ∨ ∃ e, errors = [EError "Error saving anime opening:" e]).
Proof.
  split; [reflexivity|].
  apply (saveVideo_outcome (ex_render false) ex_world
           (ok_reply (VObj [("success", VBool true)])) []).
  reflexivity.
Defined.

(** ** Nothing escapes the handlers *)

(** X8. No error leaves the three handlers that talk to the service:
    whatever the render and the replies, every throw inside
    [generateOpening], [checkGenerationProgress] and [saveVideo] is caught
    by their own [catch], whose body does not throw. *)
Theorem handlers_catch (r : State) (tid : jsval) (w : World) (rs : list Reply) :
  caught (generateOpening r w rs) ∧
  caught (checkGenerationProgress tid w rs) ∧
  caught (saveVideo r w rs).
Proof.
  split; [|split].
  - destruct (images r) as [|img imgs] eqn:Himg.
    { by rewrite generateOpening_empty_buffer. }
    assert (Hne : images r ≠ []) by (by rewrite Himg).
    destruct rs as [|reply rs]; [by rewrite generateOpening_await|].
    destruct (submit_fault reply) as [[log e]|] eqn:Hfault.
    { by rewrite (generateOpening_fault _ _ _ log e). }
    destruct (submit_fault_None _ Hfault) as (status & data & tid' & -> & Hget).
    destruct (truthy tid') eqn:Htid.
    + rewrite (generateOpening_task _ _ _ _ tid') by done.
      destruct (pollLoop (S (length rs)) r tid' false
                  (submitted r data tid' w) rs) eqn:E; try done.
      by destruct (pollLoop_no_exn _ _ _ _ _ _ _ _ _ E).
    + by rewrite (generateOpening_ramp _ _ _ _ tid').
  - destruct (checkGenerationProgress tid w rs) eqn:E; try done.
    by destruct (checkGenerationProgress_no_exn _ _ _ _ _ _ E).
  - destruct (isAuthenticated r) eqn:Hauth.
    + destruct rs as [|reply rs]; [by rewrite saveVideo_await|].
      unfold saveVideo. rewrite Hauth.
      destruct reply as [|[[] status [data|]]]; run;
        by repeat (case_match; simplify_eq/=).
    + unfold saveVideo. by rewrite Hauth.
Qed.

(** ** Counting the cycles *)

Lemma count_app (p : Event → bool) (t1 t2 : list Event) :
  length (List.filter p (t1 ++ t2))
  = (length (List.filter p t1) + length (List.filter p t2))%nat.
Proof. by rewrite List.filter_app, length_app. Qed.

Ltac count_events :=
  unfold status_queries, poll_waits, requests;
  cbn [emit set_state trace]; rewrite ?count_app; simpl; lia.

Lemma after_poll_counts tid id reply w :
  toString tid = Chars id →
  status_queries (trace (after_poll tid reply w)) = S (status_queries (trace w)) ∧
  requests (trace (after_poll tid reply w)) = S (requests (trace w)) ∧
  poll_waits (trace (after_poll tid reply w)) = poll_waits (trace w).
Proof. intros Hid. poll_cases Hid reply; repeat split; count_events. Qed.

Lemma poll_all_cons tid reply replies w :
  poll_all tid (reply :: replies) w
  = poll_all tid replies (after_poll tid reply (emit (ETimeout 2000) w)).
Proof. reflexivity. Qed.

Lemma poll_all_counts tid id replies w :
  toString tid = Chars id →
  status_queries (trace (poll_all tid replies w))
  = (status_queries (trace w) + length replies)%nat ∧
  requests (trace (poll_all tid replies w))
  = (requests (trace w) + length replies)%nat ∧
  poll_waits (trace (poll_all tid replies w))
  = (poll_waits (trace w) + length replies)%nat.
Proof.
  intros Hid. revert w. induction replies as [|reply replies IH]; intros w.
  - simpl. repeat split; lia.
  - rewrite poll_all_cons.
    destruct (IH (after_poll tid reply (emit (ETimeout 2000) w))) as (Hq & Hr & Hw).
    destruct (after_poll_counts tid id reply (emit (ETimeout 2000) w) Hid)
      as (Hq' & Hr' & Hw').
    rewrite Hq, Hr, Hw, Hq', Hr', Hw'. simpl. repeat split; count_events.
Qed.

Lemma submitted_counts r data tid w :
  status_queries (trace (submitted r data tid w)) = status_queries (trace w) ∧
  requests (trace (submitted r data tid w)) = S (requests (trace w)) ∧
  poll_waits (trace (submitted r data tid w)) = poll_waits (trace w).
Proof. unfold submitted, set_state, emit. cbn [trace]. repeat split; count_events. Qed.

(** X9. A polling run for a task id that has a text, ending on the first
    reply on which the cycle returns [true] after [n] replies on which it
    returns [false], has made exactly [n + 1] status queries, each after
    one wait of two seconds; with the submission that is [n + 2]
    requests. *)
Theorem polling_counts
    (r : State) (w : World) (status : Z) (data tid : jsval) (id : string)
    (pre : list Reply) (t : Reply) (rest : list Reply) :
  images r ≠ [] → isGenerating r = true →
  get_prop data "task_id" = Some tid → truthy tid = true →
  toString tid = Chars id →
  Forall (λ reply, verdict reply = Some false) pre →
  verdict t = Some true →
  ∃ w',
    generateOpening r w
      (Resp (mkResponse true status (Some data)) :: pre ++ t :: rest)
    = Val tt w' rest ∧
    status_queries (trace w') = (status_queries (trace w) + length pre + 1)%nat ∧
    poll_waits (trace w') = (poll_waits (trace w) + length pre + 1)%nat ∧
    requests (trace w') = (requests (trace w) + length pre + 2)%nat.
Proof.
  intros Himg Hgen Hget Htid Hid Hpre Ht.
  exists (poll_all tid (pre ++ [t]) (submitted r data tid w)). split.
  - rewrite (generateOpening_task _ _ _ _ tid) by done.
    apply (pollLoop_final _ _ id); try done. rewrite length_app. simpl. lia.
  - destruct (poll_all_counts tid id (pre ++ [t]) (submitted r data tid w) Hid)
      as (Hq & Hr & Hw).
    destruct (submitted_counts r data tid w) as (Hq' & Hr' & Hw').
    rewrite Hq, Hr, Hw, Hq', Hr', Hw', length_app. simpl. lia.
Qed.

Lemma polling_counts_witness :
  images (ex_render true) ≠ [] ∧ isGenerating (ex_render true) = true ∧
  get_prop (VObj [("task_id", VStr "job-1")]) "task_id" = Some (VStr "job-1") ∧
  truthy (VStr "job-1") = true ∧
  toString (VStr "job-1") = Chars "job-1" ∧
  Forall (λ reply, verdict reply = Some false)
    [ex_status "in_progress" 40; NetworkError] ∧
  verdict (ex_completed "/r/job-1.mp4") = Some true ∧
  ∃ w',
    generateOpening (ex_render true) ex_world
      (Resp (mkResponse true 200 (Some (VObj [("task_id", VStr "job-1")])))
         :: [ex_status "in_progress" 40; NetworkError]
         ++ ex_completed "/r/job-1.mp4" :: [])
    = Val tt w' [] ∧
    status_queries (trace w')
    = (status_queries (trace ex_world)
       + length [ex_status "in_progress" 40; NetworkError] + 1)%nat ∧
    poll_waits (trace w')
    = (poll_waits (trace ex_world)
       + length [ex_status "in_progress" 40; NetworkError] + 1)%nat ∧
    requests (trace w')
    = (requests (trace ex_world)
       + length [ex_status "in_progress" 40; NetworkError] + 2)%nat.
Proof.
  split; [done|]. do 4 (split; [reflexivity|]).
  split; [by repeat constructor|]. split; [reflexivity|].
  apply (polling_counts (ex_render true) ex_world 200
           (VObj [("task_id", VStr "job-1")]) (VStr "job-1") "job-1"
           [ex_status "in_progress" 40; NetworkError]
           (ex_completed "/r/job-1.mp4") []).
  - done.
  - reflexivity.
  - reflexivity.
  - reflexivity.
  - reflexivity.
  - by repeat constructor.
  - reflexivity.
Defined.

(** ** Faults while polling *)

Lemma poll_data_None_verdict reply :
  poll_data reply = None → verdict reply = Some false.
Proof. by destruct reply as [|[[] status [[]|]]]. Qed.

Lemma after_poll_fault tid id reply w :
  toString tid = Chars id →
  poll_data reply = None → st (after_poll tid reply w) = st w.
Proof. intros Hid. poll_cases Hid reply; by intros ?. Qed.

Lemma poll_all_faults tid id replies w :
  toString tid = Chars id →
  Forall (λ reply, poll_data reply = None) replies →
  st (poll_all tid replies w) = st w.
Proof.
  intros Hid H. revert w.
  induction H as [|reply replies Hreply _ IH]; intros w; [done|].
  rewrite poll_all_cons, IH. by rewrite (after_poll_fault _ id).
Qed.

Lemma pollLoop_pending r tid id replies :
  isGenerating r = true → toString tid = Chars id →
  Forall (λ reply, verdict reply = Some false) replies →
  ∀ fuel w, (length replies < fuel)%nat →
    pollLoop fuel r tid false w replies
    = Await (emit (EFetch (status_request id))
               (emit (ETimeout 2000) (poll_all tid replies w))).
Proof.
  intros Hgen Hid H.
  induction H as [|reply replies Hreply _ IH]; intros fuel w Hfuel.
  - destruct fuel as [|fuel]; simpl in Hfuel; [lia|].
    by rewrite (pollLoop_await _ _ _ id).
  - destruct fuel as [|fuel]; simpl in Hfuel; [lia|].
    rewrite (pollLoop_step _ _ _ id _ _ _ false) by done.
    rewrite IH by lia. reflexivity.
Qed.

(** X10. For a task id that has a text, a status query that fails
    (transport failure, error status, a body that is not JSON, JSON
    [null]) is retried without limit: after any number of failed queries
    in a row the state is still the one the submission left, every failure
    has cost one query and one wait of two seconds, and the next query is
    already out. *)
Theorem polling_retries
    (r : State) (w : World) (status : Z) (data tid : jsval) (id : string)
    (faults : list Reply) :
  images r ≠ [] → isGenerating r = true →
  get_prop data "task_id" = Some tid → truthy tid = true →
  toString tid = Chars id →
  Forall (λ reply, poll_data reply = None) faults →
  ∃ w',
    generateOpening r w (Resp (mkResponse true status (Some data)) :: faults)
    = Await w' ∧
    st w' = st (submitted r data tid w) ∧
    isGenerating (st w') = true ∧
    status_queries (trace w') = (status_queries (trace w) + length faults + 1)%nat ∧
    poll_waits (trace w') = (poll_waits (trace w) + length faults + 1)%nat.
Proof.
  intros Himg Hgen Hget Htid Hid Hfaults.
  eexists. split.
  - rewrite (generateOpening_task _ _ _ _ tid) by done.
    apply (pollLoop_pending _ _ id); [done|done| |lia].
    eapply Forall_impl; [exact Hfaults|]. apply poll_data_None_verdict.
  - cbn [st emit trace].
    rewrite (poll_all_faults _ id) by done. do 2 (split; [reflexivity|]).
    destruct (poll_all_counts tid id faults (submitted r data tid w) Hid)
      as (Hq & _ & Hw).
    destruct (submitted_counts r data tid w) as (Hq' & _ & Hw').
    unfold status_queries, poll_waits in *.
    rewrite !count_app, Hq, Hw, Hq', Hw'. simpl. lia.
Qed.

Lemma polling_retries_witness :
  images (ex_render true) ≠ [] ∧ isGenerating (ex_render true) = true ∧
  get_prop (VObj [("task_id", VStr "job-1")]) "task_id" = Some (VStr "job-1") ∧
  truthy (VStr "job-1") = true ∧
  toString (VStr "job-1") = Chars "job-1" ∧
  Forall (λ reply, poll_data reply = None)
    [NetworkError; Resp (mkResponse false 503 None); NetworkError] ∧
  ∃ w',
    generateOpening (ex_render true) ex_world
      (Resp (mkResponse true 200 (Some (VObj [("task_id", VStr "job-1")])))
         :: [NetworkError; Resp (mkResponse false 503 None); NetworkError])
    = Await w' ∧
    st w' = st (submitted (ex_render true) (VObj [("task_id", VStr "job-1")])
                  (VStr "job-1") ex_world) ∧
    isGenerating (st w') = true ∧
    status_queries (trace w')
    = (status_queries (trace ex_world)
       + length [NetworkError; Resp (mkResponse false 503 None); NetworkError] + 1)%nat ∧
    poll_waits (trace w')
    = (poll_waits (trace ex_world)
       + length [NetworkError; Resp (mkResponse false 503 None); NetworkError] + 1)%nat.
Proof.
  split; [done|]. do 4 (split; [reflexivity|]).
  split; [by repeat constructor|].
  apply (polling_retries (ex_render true) ex_world 200
           (VObj [("task_id", VStr "job-1")]) (VStr "job-1") "job-1"
           [NetworkError; Resp (mkResponse false 503 None); NetworkError]).
  - done.
  - reflexivity.
  - reflexivity.
  - reflexivity.
  - reflexivity.
  - by repeat constructor.
Defined.

(** ** A task id without a text *)

(** X20. When the service answers the submission with a task id that has
    no text (a JSON object with an own [toString] key), the loop of a
    render whose [isGenerating] is [true] never ends: however many rounds
    are run, each waits two seconds, fails to build the URL and logs the
    error; no status query is made, no reply is consumed and the state
    stays the one the submission left. *)
Theorem polling_spins
    (r : State) (tid : jsval) (fuel : nat) (w : World) (rs : list Reply) :
  isGenerating r = true → toString tid = NoString →
  ∃ w',
    pollLoop fuel r tid false w rs = OutOfFuel w' ∧
    st w' = st w ∧
    requests (trace w') = requests (trace w) ∧
    poll_waits (trace w') = (poll_waits (trace w) + fuel)%nat.
Proof.
  intros Hgen Hid. revert w. induction fuel as [|fuel IH]; intros w.
  - exists w. repeat split. lia.
  - rewrite pollLoop_round by done.
    rewrite checkGenerationProgress_no_text by done.
    destruct (IH (emit (EError "Error checking generation status:" TypeErr)
                    (emit (ETimeout 2000) w))) as (w' & -> & Hst & Hreq & Hwait).
    exists w'. split; [done|]. split; [done|].
    rewrite Hreq, Hwait. split; count_events.
Qed.

Lemma polling_spins_witness :
  isGenerating (ex_render true) = true ∧ toString ex_no_text = NoString ∧
  ∃ w',
    pollLoop 5 (ex_render true) ex_no_text false ex_world
      [ex_completed "/r/job-1.mp4"]
    = OutOfFuel w' ∧
    st w' = st ex_world ∧
    requests (trace w') = requests (trace ex_world) ∧
    poll_waits (trace w') = (poll_waits (trace ex_world) + 5)%nat.
Proof.
  do 2 (split; [reflexivity|]).
  apply (polling_spins (ex_render true) ex_no_text 5 ex_world
           [ex_completed "/r/job-1.mp4"]); reflexivity.
Defined.

(** ** Terminal replies in detail *)

Lemma is_str_true v lit : is_str v lit = true → v = VStr lit.
Proof.
  destruct v; simpl; try done. intros H. by apply String.eqb_eq in H as ->.
Qed.

(** X11. A reply with status ['completed'] and a result whose
    [video_url] is truthy and has a text publishes that reference
    resolved against [API_URL] (the base address followed by the text of
    the reference) and turns generation off; the cycle reports
    completion. *)
Theorem completed_with_result
    (tid : jsval) (id : string) (w : World) (status : Z)
    (fields : list (string * jsval)) (reference : string) (rs : list Reply) :
  toString tid = Chars id →
  is_str (lookup_field "status" fields) "completed" = true →
  truthy (lookup_field "result" fields) = true →
  truthy (field (lookup_field "result" fields) "video_url") = true →
  toString (field (lookup_field "result" fields) "video_url") = Chars reference →
  ∃ w',
    checkGenerationProgress tid w
      (Resp (mkResponse true status (Some (VObj fields))) :: rs)
    = Val true w' rs ∧
    generatedVideo (st w') = Some (API_URL +:+ reference) ∧
    isGenerating (st w') = false.
Proof.
  intros Hid Hstatus Hresult Hurl Href. eexists. split.
  - apply (checkGenerationProgress_run _ id); [done|].
    simpl. by rewrite Hstatus, Hresult, Hurl, Href.
  - unfold after_poll, checkGenerationProgress, field, to_text in *.
    rewrite Hid. run. rewrite Hstatus. simpl. rewrite Hresult. simpl.
    destruct (get_prop (lookup_field "result" fields) "video_url") eqn:Hget; simpl.
    + simpl in Hurl, Href. by rewrite Hurl, Href.
    + by destruct (truthy_get_prop _ _ Hresult Hget).
Qed.

Lemma completed_with_result_witness :
  toString (VStr "job-1") = Chars "job-1" ∧
  is_str (lookup_field "status"
            [("status", VStr "completed");
             ("result", VObj [("video_url", VStr "/r/job-1.mp4")])])
    "completed" = true ∧
  toString (field (lookup_field "result"
                     [("status", VStr "completed");
                      ("result", VObj [("video_url", VStr "/r/job-1.mp4")])])
              "video_url") = Chars "/r/job-1.mp4" ∧
  ∃ w',
    checkGenerationProgress (VStr "job-1") (ex_polling "job-1" 40)
      [Resp (mkResponse true 200
               (Some (VObj [("status", VStr "completed");
                            ("result", VObj [("video_url", VStr "/r/job-1.mp4")])])))]
    = Val true w' [] ∧
    generatedVideo (st w') = Some (API_URL +:+ "/r/job-1.mp4") ∧
    isGenerating (st w') = false.
Proof.
  do 3 (split; [reflexivity|]).
  apply (completed_with_result (VStr "job-1") "job-1" (ex_polling "job-1" 40) 200
           [("status", VStr "completed");
            ("result", VObj [("video_url", VStr "/r/job-1.mp4")])]
           "/r/job-1.mp4" []);
    reflexivity.
Defined.

(** X12. A reply with status ['failed'] whose [message] has a text turns
    generation off, leaves the published video as it was and alerts the
    user with that text (the text [undefined] when the reply carries no
    message); the cycle reports completion. *)
Theorem failed_status
    (tid : jsval) (id : string) (w : World) (status : Z)
    (fields : list (string * jsval)) (text : string) (rs : list Reply) :
  toString tid = Chars id →
  is_str (lookup_field "status" fields) "failed" = true →
  toString (lookup_field "message" fields) = Chars text →
  ∃ w',
    checkGenerationProgress tid w
      (Resp (mkResponse true status (Some (VObj fields))) :: rs)
    = Val true w' rs ∧
    isGenerating (st w') = false ∧
    generatedVideo (st w') = generatedVideo (st w) ∧
    last (trace w') = Some (EAlert ("Generation failed: " +:+ text)).
Proof.
  intros Hid Hstatus Htext. pose proof (is_str_true _ _ Hstatus) as Hfailed.
  eexists. split.
  - apply (checkGenerationProgress_run _ id); [done|].
    simpl. rewrite Hfailed. simpl. by rewrite Htext.
  - unfold after_poll, checkGenerationProgress, to_text. rewrite Hid. run.
    rewrite Hfailed. simpl. rewrite Htext. simpl.
    repeat split. by rewrite last_snoc.
Qed.

Lemma failed_status_witness :
  toString (VStr "job-1") = Chars "job-1" ∧
  is_str (lookup_field "status" [("status", VStr "failed")]) "failed" = true ∧
  toString (lookup_field "message" [("status", VStr "failed")]) = Chars "undefined" ∧
  ∃ w',
    checkGenerationProgress (VStr "job-1") (ex_polling "job-1" 40)
      [Resp (mkResponse true 200 (Some (VObj [("status", VStr "failed")])))]
    = Val true w' [] ∧
    isGenerating (st w') = false ∧
    generatedVideo (st w') = generatedVideo (st (ex_polling "job-1" 40)) ∧
    last (trace w') = Some (EAlert ("Generation failed: " +:+ "undefined")).
Proof.
  do 3 (split; [reflexivity|]).
  apply (failed_status (VStr "job-1") "job-1" (ex_polling "job-1" 40) 200
           [("status", VStr "failed")] "undefined" []); reflexivity.
Defined.

Lemma after_poll_progress tid id status fields w :
  toString tid = Chars id →
  generationProgress
    (st (after_poll tid (Resp (mkResponse true status (Some (VObj fields)))) w))
  = js_or (lookup_field "progress" fields) (VNum 0).
Proof.
  intros Hid. unfold after_poll, checkGenerationProgress, to_text.
  rewrite Hid. cycle_paths; done.
Qed.

(** X13. The progress a finished polling run leaves is the one of the
    reply it ended on, whatever was shown before: the reported value when
    truthy, and 0 when that reply reports none. *)
Theorem polling_final_progress
    (r : State) (w : World) (status status' : Z) (data tid : jsval) (id : string)
    (pre : list Reply) (fields : list (string * jsval)) (rest : list Reply) :
  images r ≠ [] → isGenerating r = true →
  get_prop data "task_id" = Some tid → truthy tid = true →
  toString tid = Chars id →
  Forall (λ reply, verdict reply = Some false) pre →
  verdict (Resp (mkResponse true status' (Some (VObj fields)))) = Some true →
  ∃ w',
    generateOpening r w
      (Resp (mkResponse true status (Some data))
         :: pre ++ Resp (mkResponse true status' (Some (VObj fields))) :: rest)
    = Val tt w' rest ∧
    generationProgress (st w') = js_or (lookup_field "progress" fields) (VNum 0).
Proof.
  intros Himg Hgen Hget Htid Hid Hpre Ht. eexists. split.
  - rewrite (generateOpening_task _ _ _ _ tid) by done.
    apply (pollLoop_final _ _ id); try done. rewrite length_app. simpl. lia.
  - rewrite poll_all_snoc. by apply (after_poll_progress _ id).
Qed.

Lemma polling_final_progress_witness :
  images (ex_render true) ≠ [] ∧ isGenerating (ex_render true) = true ∧
  get_prop (VObj [("task_id", VStr "job-1")]) "task_id" = Some (VStr "job-1") ∧
  truthy (VStr "job-1") = true ∧
  toString (VStr "job-1") = Chars "job-1" ∧
  Forall (λ reply, verdict reply = Some false) [ex_status "in_progress" 40] ∧
  verdict (Resp (mkResponse true 200 (Some (VObj [("status", VStr "completed")]))))
  = Some true ∧
  ∃ w',
    generateOpening (ex_render true) ex_world
      (Resp (mkResponse true 200 (Some (VObj [("task_id", VStr "job-1")])))
         :: [ex_status "in_progress" 40]
         ++ Resp (mkResponse true 200 (Some (VObj [("status", VStr "completed")])))
         :: [])
    = Val tt w' [] ∧
    generationProgress (st w')
    = js_or (lookup_field "progress" [("status", VStr "completed")]) (VNum 0).
Proof.
  split; [done|]. do 4 (split; [reflexivity|]).
  split; [by repeat constructor|]. split; [reflexivity|].
  apply (polling_final_progress (ex_render true) ex_world 200 200
           (VObj [("task_id", VStr "job-1")]) (VStr "job-1") "job-1"
           [ex_status "in_progress" 40] [("status", VStr "completed")] []).
  - done.
  - reflexivity.
  - reflexivity.
  - reflexivity.
  - reflexivity.
  - by repeat constructor.
  - reflexivity.
Defined.

(** ** The session in detail *)

(** X14. A process start ends authenticated exactly when the storage
    holds a non-empty token under [auth_token]; the token in memory is
    then the stored one. An absent or empty entry leaves the initial,
    unauthenticated state. The mount effect makes no request and writes
    nothing to the storage. *)
Theorem mountEffect_authenticates (w : World) (rs : list Reply) :
  ∃ w',
    mountEffect (restart w) rs = Val tt w' rs ∧
    (isAuthenticated (st w') = true
     ↔ ∃ t, storage w !! "auth_token" = Some t ∧ t ≠ "") ∧
    (∀ t, storage w !! "auth_token" = Some t → t ≠ "" →
          authToken (st w') = t ∧ userName (st w') = "HackathonUser") ∧
    (isAuthenticated (st w') = false → st w' = initialState) ∧
    storage w' = storage w ∧
    requests (trace w') = 0%nat.
Proof.
  unfold mountEffect. run.
  destruct (storage w !! "auth_token") as [t|] eqn:Hget.
  - destruct (String.eqb_spec t "") as [->|Hne]; simpl.
    + eexists. split; [reflexivity|]. simpl.
      split; [split; [done|]; intros (t & Ht & Hne); by simplify_eq|].
      split; [intros t Ht Hne; by simplify_eq|]. done.
    + eexists. split; [reflexivity|]. simpl.
      split; [split; [by exists t|done]|].
      split; [intros t' Ht' _; by simplify_eq|]. done.
  - eexists. split; [reflexivity|]. simpl.
    split; [split; [done|]; by intros (t & Ht & _)|]. done.
Qed.

(** X15. Login and logout touch only the session: every other key of the
    storage, the staged images, the theme, the progress, the generating
    flag, the published video and the task id are as before. In
    particular a logout neither clears the buffer nor stops a
    generation. *)
Theorem session_only (rand : string) (w : World) (rs : list Reply) (k : string) :
  k ≠ "auth_token" →
  ∃ w1 w2,
    handleLogin rand w rs = Val tt w1 rs ∧
    handleLogout w rs = Val tt w2 rs ∧
    Forall (λ w', storage w' !! k = storage w !! k ∧
                  images (st w') = images (st w) ∧
                  videoTheme (st w') = videoTheme (st w) ∧
                  generationProgress (st w') = generationProgress (st w) ∧
                  isGenerating (st w') = isGenerating (st w) ∧
                  generatedVideo (st w') = generatedVideo (st w) ∧
                  taskId (st w') = taskId (st w))
      [w1; w2].
Proof.
  intros Hk. do 2 eexists. do 2 (split; [reflexivity|]).
  repeat constructor; simpl.
  - by apply lookup_insert_ne.
  - by apply lookup_delete_ne.
Qed.

Lemma session_only_witness :
  "theme" ≠ "auth_token" ∧
  ∃ w1 w2,
    handleLogin "x" (ex_polling "job-1" 40) [] = Val tt w1 [] ∧
    handleLogout (ex_polling "job-1" 40) [] = Val tt w2 [] ∧
    Forall (λ w', storage w' !! "theme" = storage (ex_polling "job-1" 40) !! "theme" ∧
                  images (st w') = images (st (ex_polling "job-1" 40)) ∧
                  videoTheme (st w') = videoTheme (st (ex_polling "job-1" 40)) ∧
                  generationProgress (st w')
                  = generationProgress (st (ex_polling "job-1" 40)) ∧
                  isGenerating (st w') = isGenerating (st (ex_polling "job-1" 40)) ∧
                  generatedVideo (st w') = generatedVideo (st (ex_polling "job-1" 40)) ∧
                  taskId (st w') = taskId (st (ex_polling "job-1" 40)))
      [w1; w2].
Proof.
  split; [done|].
  apply (session_only "x" (ex_polling "job-1" 40) [] "theme"). done.
Defined.

(** X16. Login followed by logout leaves the storage without a token,
    and exactly as it was when it held none before; logging in twice keeps
    the token of the second login. *)
Theorem login_logout_storage (rand rand' : string) (w : World) (rs : list Reply) :
  ∃ w1 w2,
    (handleLogin rand ;; handleLogout) w rs = Val tt w1 rs ∧
    storage w1 = delete "auth_token" (storage w) ∧
    (storage w !! "auth_token" = None → storage w1 = storage w) ∧
    isAuthenticated (st w1) = false ∧
    (handleLogin rand ;; handleLogin rand') w rs = Val tt w2 rs ∧
    storage w2 = <["auth_token" := "hackathon-demo-token-" +:+ rand']> (storage w) ∧
    authToken (st w2) = "hackathon-demo-token-" +:+ rand'.
Proof.
  do 2 eexists. split; [reflexivity|]. simpl.
  split; [apply delete_insert_eq|].
  split; [intros Hnone; by rewrite delete_insert_eq, delete_id|].
  split; [reflexivity|]. split; [reflexivity|]. simpl.
  split; [apply insert_insert_eq|reflexivity].
Qed.

Lemma session_consistent_frame w w' :
  same_frame w w' → session_consistent w → session_consistent w'.
Proof.
  intros (Hsto & _ & _ & Hauth & Huser & Htok). unfold session_consistent.
  by rewrite Hsto, Hauth, Huser, Htok.
Qed.

Lemma saveVideo_frame r w rs : same_frame w (world_of (saveVideo r w rs)).
Proof.
  unfold saveVideo. destruct (isAuthenticated r); simpl; [|by repeat split].
  destruct rs as [|[|[[] status [data|]]] rs]; run;
    repeat (case_match; simplify_eq/=); by repeat split.
Qed.

Lemma generateOpening_session r w rs :
  session_consistent w → session_consistent (world_of (generateOpening r w rs)).
Proof.
  intros Hw.
  destruct (images r) as [|img imgs] eqn:Himg.
  { by rewrite generateOpening_empty_buffer. }
  assert (Hne : images r ≠ []) by (by rewrite Himg).
  destruct rs as [|reply rs]; [by rewrite generateOpening_await|].
  destruct (submit_fault reply) as [[log e]|] eqn:Hfault.
  { by rewrite (generateOpening_fault _ _ _ log e). }
  destruct (submit_fault_None _ Hfault) as (status & data & tid & -> & Hget).
  destruct (truthy tid) eqn:Htid.
  - rewrite (generateOpening_task _ _ _ _ tid) by done.
    eapply session_consistent_frame; [apply pollLoop_frame|done].
  - by rewrite (generateOpening_ramp _ _ _ _ tid).
Qed.

Lemma handleImageUpload_frame files w rs :
  session_consistent w → session_consistent (world_of (handleImageUpload files w rs)).
Proof. unfold handleImageUpload. by destruct (promise_all files). Qed.

(** X17. The session stays consistent under every handler, whatever the
    render it comes from and whatever the service answers: when the state
    says authenticated, the token in memory is not empty and is the one
    in the storage. A process start always produces a consistent
    session. *)
Theorem session_consistent_preserved
    (r : State) (rand : string) (index : Z) (files : list Upload) (tid : jsval)
    (w : World) (rs : list Reply) :
  session_consistent w →
  session_consistent (world_of (handleLogin rand w rs)) ∧
  session_consistent (world_of (handleLogout w rs)) ∧
  session_consistent (world_of (mountEffect w rs)) ∧
  session_consistent (world_of (mountEffect (restart w) rs)) ∧
  session_consistent (world_of (handleImageUpload files w rs)) ∧
  session_consistent (world_of (removeImage r index w rs)) ∧
  session_consistent (world_of (generateOpening r w rs)) ∧
  session_consistent (world_of (checkGenerationProgress tid w rs)) ∧
  session_consistent (world_of (saveVideo r w rs)).
Proof.
  intros Hw.
  assert (Hmount : ∀ w0, session_consistent w0 →
            session_consistent (world_of (mountEffect w0 rs))).
  { intros w0 Hw0. unfold mountEffect. run.
    destruct (storage w0 !! "auth_token") as [t|] eqn:Hget; [|done].
    destruct (String.eqb_spec t "") as [->|Hne]; simpl; [done|].
    unfold session_consistent. simpl. done. }
  split.
  { unfold session_consistent. simpl. split; [done|].
    split; [apply lookup_insert_eq|done]. }
  split; [done|].
  split; [by apply Hmount|].
  split; [by apply Hmount|].
  split; [by apply handleImageUpload_frame|].
  split; [done|].
  split; [by apply generateOpening_session|].
  split.
  - eapply session_consistent_frame; [|done]. apply cycle_frame.
  - by eapply session_consistent_frame; [apply saveVideo_frame|].
Qed.

Lemma session_consistent_preserved_witness :
  session_consistent ex_authenticated ∧
  session_consistent
    (world_of (generateOpening (ex_render true) ex_authenticated
                 [ok_reply (VObj [("task_id", VStr "job-1")]);
                  ex_completed "/r/job-1.mp4"])) ∧
  session_consistent (world_of (handleLogout ex_authenticated [])).
Proof.
  assert (H : session_consistent ex_authenticated).
  { unfold session_consistent. simpl. split; [done|]. split; [|done].
    apply lookup_singleton_eq. }
  split; [exact H|].
  destruct (session_consistent_preserved (ex_render true) "x" 0 [] VNull
              ex_authenticated
              [ok_reply (VObj [("task_id", VStr "job-1")]);
               ex_completed "/r/job-1.mp4"] H)
    as (_ & _ & _ & _ & _ & _ & Hgen & _).
  destruct (session_consistent_preserved (ex_render true) "x" 0 [] VNull
              ex_authenticated [] H)
    as (_ & Hout & _).
  split; [exact Hgen | exact Hout].
Defined.

(** ** From the page *)

(** X18. From the page, with a consistent session, the save button either
    is not there (then nothing happens) or sends the save request with the
    bearer header of the token that is in the storage: the log-in alert of
    [saveVideo] cannot be reached from the page. *)
Theorem page_save_bearer (w : World) (rs : list Reply) :
  session_consistent w →
  (save_visible (st w) = false → page_save w rs = Val tt w rs) ∧
  (save_visible (st w) = true →
   page_save w [] = Await (emit (EFetch (save_request (st w))) w) ∧
   headers (save_request (st w))
   = [("Content-Type", "application/json");
      ("Authorization", "Bearer " +:+ authToken (st w))] ∧
   storage w !! "auth_token" = Some (authToken (st w))).
Proof.
  intros Hw. unfold page_save. split; intros Hvis; rewrite Hvis; [done|].
  unfold save_visible in Hvis. apply andb_true_iff in Hvis as [Hauth _].
  unfold session_consistent in Hw. rewrite Hauth in Hw.
  destruct Hw as (Hne & Hsto & _).
  split; [by apply saveVideo_await|]. split; [|done].
  unfold save_request. cbn [headers].
  by destruct (String.eqb_spec (authToken (st w)) "").
Qed.

Lemma page_save_bearer_witness :
  session_consistent
    (mkWorld (apply_update (SetGeneratedVideo (Some "/sample-anime-opening.mp4"))
                (ex_render false))
       {["auth_token" := "hackathon-demo-token-x"]} []) ∧
  page_save
    (mkWorld (apply_update (SetGeneratedVideo (Some "/sample-anime-opening.mp4"))
                (ex_render false))
       {["auth_token" := "hackathon-demo-token-x"]} []) []
  = Await
      (emit (EFetch
               (save_request
                  (apply_update (SetGeneratedVideo (Some "/sample-anime-opening.mp4"))
                     (ex_render false))))
         (mkWorld (apply_update (SetGeneratedVideo (Some "/sample-anime-opening.mp4"))
                     (ex_render false))
            {["auth_token" := "hackathon-demo-token-x"]} [])).
Proof.
  assert (H : session_consistent
    (mkWorld (apply_update (SetGeneratedVideo (Some "/sample-anime-opening.mp4"))
                (ex_render false))
       {["auth_token" := "hackathon-demo-token-x"]} [])).
  { unfold session_consistent. simpl. split; [done|]. split; [|done].
    apply lookup_singleton_eq. }
  split; [exact H|].
  destruct (page_save_bearer _ [] H) as [_ Hvis].
  destruct (Hvis eq_refl) as [Hrun _]. exact Hrun.
Defined.

Lemma others_keep_generating rand files r index w rs :
  Forall (λ w', isGenerating (st w') = isGenerating (st w))
    [world_of (handleLogin rand w rs); world_of (handleLogout w rs);
     world_of (handleImageUpload files w rs); world_of (removeImage r index w rs);
     world_of (saveVideo r w rs)].
Proof.
  repeat constructor.
  - unfold handleImageUpload. by destruct (promise_all files).
  - unfold saveVideo. destruct (isAuthenticated r); simpl; [|done].
    destruct rs as [|[|[[] status [data|]]] rs]; run;
      by repeat (case_match; simplify_eq/=).
Qed.

(** X19. A generation started from the page and answered with a task id
    never finishes: the handler returns at once without a status query,
    the state keeps saying that a generation is running, the generate
    button, disabled by that, does nothing whatever is answered
    afterwards, and no other handler of the page (login, logout, upload,
    remove, save) turns the generating flag off. *)
Theorem click_generate_stuck
    (w : World) (status : Z) (data tid : jsval) (rs : list Reply) :
  generate_enabled (st w) = true →
  get_prop data "task_id" = Some tid → truthy tid = true →
  ∃ w',
    click_generate w (Resp (mkResponse true status (Some data)) :: rs)
    = Val tt w' rs ∧
    isGenerating (st w') = true ∧
    generationProgress (st w') = VNum 0 ∧
    generatedVideo (st w') = generatedVideo (st w) ∧
    status_queries (trace w') = status_queries (trace w) ∧
    generate_enabled (st w') = false ∧
    (∀ rs', click_generate w' rs' = Val tt w' rs') ∧
    (∀ rand files r index w0 rs',
       isGenerating (st w0) = true →
       Forall (λ w1, isGenerating (st w1) = true)
         [world_of (handleLogin rand w0 rs'); world_of (handleLogout w0 rs');
          world_of (handleImageUpload files w0 rs');
          world_of (removeImage r index w0 rs'); world_of (saveVideo r w0 rs')]).
Proof.
  intros Hen Hget Htid. exists (submitted (st w) data tid w).
  split; [by apply click_generate_never_polls|].
  do 3 (split; [reflexivity|]).
  split; [apply submitted_counts|].
  split; [reflexivity|]. split; [intros rs'; reflexivity|].
  intros rand files r index w0 rs' Hgen.
  eapply Forall_impl; [apply others_keep_generating|].
  intros w1 Hw1. simpl in Hw1. by rewrite Hw1.
Qed.

Lemma click_generate_stuck_witness :
  generate_enabled (st ex_world) = true ∧
  get_prop (VObj [("task_id", VStr "job-1")]) "task_id" = Some (VStr "job-1") ∧
  truthy (VStr "job-1") = true ∧
  ∃ w',
    click_generate ex_world
      [Resp (mkResponse true 200 (Some (VObj [("task_id", VStr "job-1")])));
       ex_completed "/r/job-1.mp4"]
    = Val tt w' [ex_completed "/r/job-1.mp4"] ∧
    isGenerating (st w') = true ∧
    generate_enabled (st w') = false ∧
    ∀ rs', click_generate w' rs' = Val tt w' rs'.
Proof.
  do 3 (split; [reflexivity|]).
  destruct (click_generate_stuck ex_world 200 (VObj [("task_id", VStr "job-1")])
              (VStr "job-1") [ex_completed "/r/job-1.mp4"])
    as (w' & Hrun & Hgen & _ & _ & _ & Hdis & Hnoop & _); try reflexivity.
  exists w'. by repeat split.
Defined.
